(** * Janus policy decision point: a shallow embedding and its properties

    The development follows [janus_agent/core/pdp.py] and
    [janus_agent/core/policy_repository.py].  Python dictionaries are finite
    maps with string keys, Python exceptions are the [Raise] branch of an
    error monad, and the dynamically typed values that flow through the
    engine are the inductive type [value]. *)

From Stdlib Require Import ZArith QArith String Ascii List Bool Lia.
From Stdlib Require Import Sorting.Permutation Sorting.Sorted.
From stdpp Require Import base option gmap strings list fin_maps.

Local Open Scope Z_scope.
Local Open Scope string_scope.

(** ** Exceptions and the error monad *)

Inductive exn : Set :=
| TypeError
| AttributeError
| KeyError.

Inductive result (A : Type) : Type :=
| Ok (a : A)
| Raise (e : exn).

Arguments Ok {A} a.
Arguments Raise {A} e.

#[global] Instance result_ret : MRet result := fun A a => Ok a.

#[global] Instance result_bind : MBind result := fun A B f m =>
  match m with
  | Ok a => f a
  | Raise e => Raise e
  end.

Definition returns {A : Type} (m : result A) : Prop := exists a, m = Ok a.

(** ** Python values

    The fragment of Python values covered: [None], booleans, integers,
    floats, strings over 8-bit characters, and dictionaries from strings to
    such scalars. *)

(** The floats other than [float("inf")].  A finite float is given by its
    exact value, which is what Python compares it by, against floats and
    integers alike; every rational is admitted, the values of the doubles
    among them.  The two zeros are equal and are not told apart.  NaN is
    equal to nothing, itself included, and a container finds it by identity
    only: [obj] names the float object. *)
Inductive pyfloat : Set :=
| FFin (q : Q)
| FNegInf
| FNaN (obj : positive).

(** The scalars; [AInf] is [float("inf")], [AFloat] any other float. *)
Inductive atom : Set :=
| ANone
| ABool (b : bool)
| AInt (z : Z)
| AInf
| AStr (s : string)
| AFloat (f : pyfloat).

Inductive value : Type :=
| VAtom (a : atom)
| VDict (d : gmap string atom).

Definition VStr (s : string) : value := VAtom (AStr s).
Definition VInt (z : Z) : value := VAtom (AInt z).
Definition VNone : value := VAtom ANone.

(** Numbers: [bool] is a subtype of [int] in Python ([True == 1]), and
    integers compare exactly with floats.  NaN has no place in the order. *)

Inductive number : Set :=
| Fin (q : Q)
| PInf
| NInf.

Definition num_of (a : atom) : option number :=
  match a with
  | ABool b => Some (Fin (inject_Z (if b then 1 else 0)))
  | AInt z => Some (Fin (inject_Z z))
  | AInf => Some PInf
  | AFloat (FFin q) => Some (Fin q)
  | AFloat FNegInf => Some NInf
  | AFloat (FNaN _) | ANone | AStr _ => None
  end.

(** The scalars that [<] and [>] accept next to a number. *)
Definition numeric (a : atom) : bool :=
  match a with
  | ABool _ | AInt _ | AInf | AFloat _ => true
  | ANone | AStr _ => false
  end.

Definition num_compare (x y : number) : comparison :=
  match x, y with
  | Fin a, Fin b => Qcompare a b
  | NInf, NInf => Eq
  | NInf, _ => Lt
  | _, NInf => Gt
  | PInf, PInf => Eq
  | _, PInf => Lt
  | PInf, _ => Gt
  end.

(** [a == b] on scalars; never raises. *)
Definition atom_eq (a b : atom) : bool :=
  match a, b with
  | ANone, ANone => true
  | AStr s, AStr t => String.eqb s t
  | _, _ =>
      match num_of a, num_of b with
      | Some x, Some y =>
          match num_compare x y with Eq => true | _ => false end
      | _, _ => false
      end
  end.

(** [a is b or a == b], the test by which dictionaries, sets and tuple
    comparison identify two objects.  Identity adds something to [==] for
    NaN only. *)
Definition atom_same (a b : atom) : bool :=
  match a, b with
  | AFloat (FNaN i), AFloat (FNaN j) => Pos.eqb i j
  | _, _ => atom_eq a b
  end.

(** Ordering of scalars, shared by [<] and [>]: numbers with numbers and
    strings with strings (by character code); anything else is a
    [TypeError].  A NaN next to a number or a NaN is unordered ([None]):
    none of [<], [>], [<=], [>=] holds. *)
Definition atom_compare (a b : atom) : result (option comparison) :=
  match a, b with
  | AStr s, AStr t => Ok (Some (String.compare s t))
  | _, _ =>
      if numeric a && numeric b then
        match num_of a, num_of b with
        | Some x, Some y => Ok (Some (num_compare x y))
        | _, _ => Ok None
        end
      else Raise TypeError
  end.

(** [d1 == d2] on dictionaries: same keys, and values that are the same
    object or equal. *)
Definition dict_eq (d1 d2 : gmap string atom) : bool :=
  Nat.eqb (size d1) (size d2) &&
  forallb (fun kv : string * atom =>
             match d2 !! fst kv with
             | Some b => atom_same (snd kv) b
             | None => false
             end) (map_to_list d1).

Definition py_eq (v w : value) : bool :=
  match v, w with
  | VAtom a, VAtom b => atom_eq a b
  | VDict d1, VDict d2 => dict_eq d1 d2
  | _, _ => false
  end.

(** [v is w or v == w] *)
Definition py_same (v w : value) : bool :=
  match v, w with
  | VAtom a, VAtom b => atom_same a b
  | VDict d1, VDict d2 => dict_eq d1 d2
  | _, _ => false
  end.

Definition py_compare (v w : value) : result (option comparison) :=
  match v, w with
  | VAtom a, VAtom b => atom_compare a b
  | _, _ => Raise TypeError
  end.

(** [v < w] and [v > w]. *)
Definition py_lt (v w : value) : result bool :=
  c ← py_compare v w; mret (match c with Some Lt => true | _ => false end).

Definition py_gt (v w : value) : result bool :=
  c ← py_compare v w; mret (match c with Some Gt => true | _ => false end).

(** [v <= w]; the engine does not use it, the bounds are stated with it. *)
Definition py_le (v w : value) : result bool :=
  c ← py_compare v w;
  mret (match c with Some Lt | Some Eq => true | _ => false end).

(** ** String methods *)

(** [s.startswith(pre)] *)
Fixpoint startswith (s pre : string) {struct pre} : bool :=
  match pre with
  | EmptyString => true
  | String c pre' =>
      match s with
      | EmptyString => false
      | String d s' => Ascii.eqb c d && startswith s' pre'
      end
  end.

(** [s.endswith(suf)] *)
Fixpoint endswith (s suf : string) : bool :=
  String.eqb s suf ||
  match s with
  | EmptyString => false
  | String _ s' => endswith s' suf
  end.

(** [s[:-1]] *)
Fixpoint drop_last (s : string) : string :=
  match s with
  | EmptyString => EmptyString
  | String c EmptyString => EmptyString
  | String c s' => String c (drop_last s')
  end.

(** [sub in s] for strings. *)
Fixpoint contains (s sub : string) : bool :=
  startswith s sub ||
  match s with
  | EmptyString => false
  | String _ s' => contains s' sub
  end.

(** Method lookup on a value: only [str] has [endswith]/[startswith]. *)
Definition py_endswith (v : value) (suf : string) : result bool :=
  match v with
  | VAtom (AStr s) => Ok (endswith s suf)
  | _ => Raise AttributeError
  end.

Definition py_startswith (v : value) (pre : string) : result bool :=
  match v with
  | VAtom (AStr s) => Ok (startswith s pre)
  | _ => Raise AttributeError
  end.

(** [v[:-1]], used only after [v.endswith] succeeded, i.e. on a [str]. *)
Definition py_drop_last (v : value) : result string :=
  match v with
  | VAtom (AStr s) => Ok (drop_last s)
  | _ => Raise TypeError
  end.

(** [key in v]: key test on a dictionary, substring test on a string,
    [TypeError] on the scalars that are not iterable. *)
Definition py_in (key : string) (v : value) : result bool :=
  match v with
  | VDict d => Ok (match d !! key with Some _ => true | None => false end)
  | VAtom (AStr s) => Ok (contains s key)
  | VAtom _ => Raise TypeError
  end.

(** [v[key]] for a string key, reached only when [key in v] held: a
    dictionary returns the entry, a string cannot be indexed by a string. *)
Definition py_getitem (v : value) (key : string) : result value :=
  match v with
  | VDict d =>
      match d !! key with
      | Some a => Ok (VAtom a)
      | None => Raise KeyError
      end
  | VAtom _ => Raise TypeError
  end.

(** [d.get(key, dflt)] *)
Definition dict_get (d : gmap string value) (key : string) (dflt : value) : value :=
  default dflt (d !! key).

(** Truth value of an object, as used by [or] and [not]. *)
Definition py_truthy (v : value) : bool :=
  match v with
  | VAtom ANone => false
  | VAtom (ABool b) => b
  | VAtom (AInt z) => negb (Z.eqb z 0)
  | VAtom AInf => true
  | VAtom (AStr s) => negb (String.eqb s "")
  | VAtom (AFloat (FFin q)) => negb (Qeq_bool q 0)
  | VAtom (AFloat _) => true
  | VDict d => negb (bool_decide (d = ∅))
  end.

(** [a or b] *)
Definition py_or (a b : value) : value := if py_truthy a then a else b.

(** An f-string before rendering: literal text and interpolated values
    ([Fmt v] stands for [str(v)]). *)
Inductive piece : Type :=
| Lit (s : string)
| Fmt (v : value).

(** ** The policy store ([policy_repository.py]) *)

Module PolicyRepository.

(** [self.policies]: the entries of the dictionary from policy id to policy,
    in insertion order. *)
Record t : Type := { policies : list (atom * gmap string value) }.

Definition size (self : t) : nat := length (policies self).

Definition list (self : t) : Datatypes.list (gmap string value) :=
  map snd (policies self).

End PolicyRepository.

(** ** The decision engine ([pdp.py]) *)

(** One entry of [match_results]: the dictionary with the six fixed keys
    built in the loop of [evaluate_all]. *)
Record match_result : Type := {
  mr_policy : value;
  mr_level : value;
  mr_priority : value;
  mr_effect : value;
  mr_matches : bool;
  mr_result : string
}.

(** The final decision dictionary. *)
Record decision : Type := {
  allow : bool;
  effect : string;
  reason : list piece;
  matched_policy : value
}.

(** The dictionary returned by [evaluate_all]. *)
Record evaluation : Type := {
  matches : list match_result;
  final : decision
}.

Definition _matches_pattern (pattern value : value) : result bool :=
  if py_eq pattern (VStr "*") then Ok true
  else if py_eq pattern value then Ok true
  else
    ends ← py_endswith pattern "*";
    if ends : bool then
      pre ← py_drop_last pattern;
      py_startswith value pre
    else Ok false.

(** The [match] entry of a policy may be absent; [{}] is the default. *)
Definition empty_dict : value := VDict ∅.

Definition _matches (policy context : gmap string value) : result bool :=
  a ← _matches_pattern (dict_get policy "action" (VStr "*"))
                       (dict_get context "action" (VStr ""));
  if negb a then Ok false else
  s ← _matches_pattern (dict_get policy "subject" (VStr "*"))
                       (dict_get context "subject" (VStr ""));
  if negb s then Ok false else
  r ← _matches_pattern (dict_get policy "resource" (VStr "*"))
                       (dict_get context "resource" (VStr "*"));
  if negb r then Ok false else
  let match_ := dict_get policy "match" empty_dict in
  has_max ← py_in "amount_max" match_;
  over ← (if has_max : bool then
            bound ← py_getitem match_ "amount_max";
            py_gt (dict_get context "amount" (VAtom AInf)) bound
          else Ok false);
  if over : bool then Ok false else
  has_min ← py_in "amount_min" match_;
  under ← (if has_min : bool then
             bound ← py_getitem match_ "amount_min";
             py_lt (dict_get context "amount" (VInt 0)) bound
           else Ok false);
  if under : bool then Ok false else
  Ok true.

Definition _result_for_single_policy (policy : gmap string value) (matches : bool)
  : string :=
  if negb matches then "not_applicable" else
  let effect := dict_get policy "effect" VNone in
  if py_eq effect (VStr "deny") then "deny"
  else if py_eq effect (VStr "allow") then "allow"
  else if py_eq effect (VStr "require_approval") then "require_approval"
  else "unknown".

(** *** [sorted]

    [sorted(xs, key=f)] first computes [f] on every element, left to right,
    and then sorts stably using only [<] on the keys.  The model is a stable
    insertion sort in the error monad: an exception raised by [f] or by [<]
    propagates.  On keys that [<] orders without raising, every stable sort
    returns the same list. *)

Section Sorted.
Context {K A : Type}.
Variable lt : K -> K -> result bool.

Fixpoint insert_stable (x : K * A) (l : list (K * A)) : result (list (K * A)) :=
  match l with
  | [] => Ok [x]
  | y :: l' =>
      b ← lt (fst y) (fst x);
      if b : bool then l'' ← insert_stable x l'; Ok (y :: l'')
      else Ok (x :: y :: l')
  end.

Fixpoint sort_stable (l : list (K * A)) : result (list (K * A)) :=
  match l with
  | [] => Ok []
  | x :: l' => s ← sort_stable l'; insert_stable x s
  end.

Fixpoint decorate (key : A -> result K) (l : list A) : result (list (K * A)) :=
  match l with
  | [] => Ok []
  | x :: l' => k ← key x; d ← decorate key l'; Ok ((k, x) :: d)
  end.

Definition sorted (key : A -> result K) (l : list A) : result (list A) :=
  d ← decorate key l;
  s ← sort_stable d;
  Ok (map snd s).

End Sorted.

Definition LEVEL_ORDER : gmap string Z :=
  <["enterprise" := 1]> (<["domain" := 2]> (<["agent" := 3]> (<["runtime" := 4]> ∅))).

(** [LEVEL_ORDER.get(level, dflt)]: the key is hashed first, which raises on
    a dictionary; a key that is not a string equals none of the four keys. *)
Definition LEVEL_ORDER_get (level : value) (dflt : Z) : result Z :=
  match level with
  | VDict _ => Raise TypeError
  | VAtom (AStr s) => Ok (default dflt (LEVEL_ORDER !! s))
  | VAtom _ => Ok dflt
  end.

(** The sort key [(LEVEL_ORDER.get(m["level"], 3), m["priority"])]. *)
Definition sort_key (m : match_result) : result (Z * value) :=
  rank ← LEVEL_ORDER_get (mr_level m) 3;
  Ok (rank, mr_priority m).

(** [k1 < k2] on the key tuples: the first component on which the tuples
    differ (being neither the same object nor equal) decides, by [<]. *)
Definition key_lt (k1 k2 : Z * value) : result bool :=
  if negb (Z.eqb (fst k1) (fst k2)) then Ok (Z.ltb (fst k1) (fst k2))
  else if negb (py_same (snd k1) (snd k2)) then py_lt (snd k1) (snd k2)
  else Ok false.

Definition has_result (r : string) (m : match_result) : bool :=
  String.eqb (mr_result m) r.

Definition _compute_final_decision (match_results : list match_result)
  : result decision :=
  let applicable := List.filter mr_matches match_results in
  match applicable with
  | [] =>
      Ok {| allow := false; effect := "deny";
            reason := [Lit "No matching policies"];
            matched_policy := VStr "default-deny" |}
  | _ :: _ =>
      applicable_sorted ← sorted key_lt sort_key applicable;
      match find (has_result "deny") applicable_sorted with
      | Some m =>
          Ok {| allow := false; effect := "deny";
                reason := [Lit "Deny by policy "; Fmt (mr_policy m)];
                matched_policy := mr_policy m |}
      | None =>
      match find (has_result "require_approval") applicable_sorted with
      | Some m =>
          Ok {| allow := false; effect := "require_approval";
                reason := [Lit "Approval required by policy "; Fmt (mr_policy m)];
                matched_policy := mr_policy m |}
      | None =>
      match find (has_result "allow") applicable_sorted with
      | Some m =>
          Ok {| allow := true; effect := "allow";
                reason := [Lit "Allow by policy "; Fmt (mr_policy m)];
                matched_policy := mr_policy m |}
      | None =>
          Ok {| allow := false; effect := "deny";
                reason := [Lit "Default deny"];
                matched_policy := VStr "default-deny" |}
      end end end
  end.

(** The evaluation context [{"subject": ..., "action": ..., "resource":
    resource or "*", **attrs}]: entries of [attrs] replace the three
    positional entries. *)
Definition build_context (subject action resource : value)
    (attrs : gmap string value) : gmap string value :=
  attrs ∪ <["resource" := py_or resource (VStr "*")]>
            (<["action" := action]> (<["subject" := subject]> ∅)).

(** The loop over [policies] that fills [match_results]. *)
Fixpoint match_all (policies : list (gmap string value))
    (context : gmap string value) : result (list match_result) :=
  match policies with
  | [] => Ok []
  | p :: rest =>
      matches ← _matches p context;
      let m := {| mr_policy := dict_get p "id" VNone;
                  mr_level := dict_get p "level" (VStr "agent");
                  mr_priority := dict_get p "priority" (VInt 50);
                  mr_effect := dict_get p "effect" VNone;
                  mr_matches := matches;
                  mr_result := _result_for_single_policy p matches |} in
      ms ← match_all rest context;
      Ok (m :: ms)
  end.

Definition evaluate_all (repository : PolicyRepository.t)
    (subject action resource : value) (attrs : option (gmap string value))
  : result evaluation :=
  let attrs := default ∅ attrs in
  let context := build_context subject action resource attrs in
  let policies := PolicyRepository.list repository in
  match_results ← match_all policies context;
  final_decision ← _compute_final_decision match_results;
  Ok {| matches := match_results; final := final_decision |}.

Definition evaluate (repository : PolicyRepository.t)
    (subject action resource : value) (attrs : option (gmap string value))
  : result decision :=
  full ← evaluate_all repository subject action resource attrs;
  Ok (final full).

(** ** Well-formed data

    The shapes the data model gives to policies and requests, as boolean
    checks on the dynamic values. *)

Definition is_str (v : value) : bool :=
  match v with VAtom (AStr _) => true | _ => false end.

Definition is_int (v : value) : bool :=
  match v with VAtom (AInt _) => true | _ => false end.

Definition is_number (v : value) : bool :=
  match v with VAtom a => numeric a | VDict _ => false end.

Definition hashable (v : value) : bool :=
  match v with VAtom _ => true | VDict _ => false end.

Definition bound_ok (d : gmap string atom) (key : string) : bool :=
  match d !! key with
  | Some a => is_number (VAtom a)
  | None => true
  end.




(** A match result whose sort key can be computed and compared. *)
Definition sortable (m : match_result) : bool :=
  hashable (mr_level m) && is_int (mr_priority m).

(** ** Specification-side notions *)

(** The level rank as the specification words it: enterprise 1, domain 2,
    agent 3, runtime 4, anything else 3. *)
Definition spec_level_rank (level : value) : Z :=
  match level with
  | VAtom (AStr s) =>
      if String.eqb s "enterprise" then 1
      else if String.eqb s "domain" then 2
      else if String.eqb s "agent" then 3
      else if String.eqb s "runtime" then 4
      else 3
  | _ => 3
  end.

Definition int_of (v : value) : Z :=
  match v with
  | VAtom (AInt z) => z
  | _ => 0
  end.

Definition priority_of (m : match_result) : Z := int_of (mr_priority m).

(** The pair [(level_rank, priority)] and its lexicographic order. *)
Definition spec_key (m : match_result) : Z * Z :=
  (spec_level_rank (mr_level m), priority_of m).

Definition lex_le (a b : Z * Z) : Prop :=
  fst a < fst b \/ (fst a = fst b /\ snd a <= snd b).

(** The same order on the tuples the engine sorts by. *)
Definition key_le (k1 k2 : Z * value) : Prop :=
  lex_le (fst k1, int_of (snd k1)) (fst k2, int_of (snd k2)).

(** A matched result with the given outcome. *)
Definition matched_with (r : string) (m : match_result) : Prop :=
  mr_matches m = true /\ mr_result m = r.

(** Every matched result can be sorted. *)
Definition sortable_results (rs : list match_result) : Prop :=
  forall m, In m rs -> mr_matches m = true -> sortable m = true.

Definition recognized (r : string) : Prop :=
  r = "deny" \/ r = "require_approval" \/ r = "allow".

(** The three-clause pattern rule: the wildcard, the exact string, or a
    prefix followed by one trailing star. *)
Definition spec_matches_pattern (p v : string) : Prop :=
  p = "*" \/ p = v \/
  exists q r, p = String.append q "*" /\ v = String.append q r.

(** [x <= y] on numbers. *)
Definition num_leb (x y : number) : bool :=
  match num_compare x y with Gt => false | _ => true end.

(** An integer as a number. *)
Definition int (z : Z) : number := Fin (inject_Z z).

(** What the two bound tests let through among numbers: [not (a > b)] and
    [not (a < b)].  With a NaN on either side neither [>] nor [<] holds, so
    both tests pass. *)
Definition not_above (a b : atom) : bool :=
  match num_of a, num_of b with
  | Some x, Some y => num_leb x y
  | _, _ => true
  end.

Definition not_below (a b : atom) : bool :=
  match num_of a, num_of b with
  | Some x, Some y => num_leb y x
  | _, _ => true
  end.

Definition is_nan (v : value) : bool :=
  match v with
  | VAtom (AFloat (FNaN _)) => true
  | _ => false
  end.

(** The amount the bounds are compared with: the attribute when present,
    the given default otherwise. *)
Definition amount_or (dflt : number) (c : gmap string value) : option number :=
  match c !! "amount" with
  | None => Some dflt
  | Some (VAtom a) => num_of a
  | Some (VDict _) => None
  end.

(** The three pattern tests of [_matches] all succeed. *)
Definition patterns_match (p c : gmap string value) : Prop :=
  _matches_pattern (dict_get p "action" (VStr "*"))
                   (dict_get c "action" (VStr "")) = Ok true /\
  _matches_pattern (dict_get p "subject" (VStr "*"))
                   (dict_get c "subject" (VStr "")) = Ok true /\
  _matches_pattern (dict_get p "resource" (VStr "*"))
                   (dict_get c "resource" (VStr "*")) = Ok true.

(** [m] is the match result that the loop of [evaluate_all] builds for the
    policy [p] in the given context. *)
Definition is_result_of (context p : gmap string value) (m : match_result) : Prop :=
  _matches p context = Ok (mr_matches m) /\
  mr_policy m = dict_get p "id" VNone /\
  mr_level m = dict_get p "level" (VStr "agent") /\
  mr_priority m = dict_get p "priority" (VInt 50) /\
  mr_effect m = dict_get p "effect" VNone /\
  mr_result m = _result_for_single_policy p (mr_matches m).

(** ** Sample data, after the policies of [examples/adk_demo] *)

Definition mk_policy (id level action subject effect : string) (priority : Z)
    (match_ : gmap string atom) : gmap string value :=
  <["id" := VStr id]> (<["level" := VStr level]> (<["action" := VStr action]>
  (<["subject" := VStr subject]> (<["resource" := VStr "*"]>
  (<["effect" := VStr effect]> (<["match" := VDict match_]>
  (<["priority" := VInt priority]> ∅))))))).

Definition agent_allow_small : gmap string value :=
  mk_policy "agent-allow-small" "agent" "payment.transfer" "*" "allow" 10
            {[ "amount_max" := AInt 999 ]}.

Definition agent_deny_large : gmap string value :=
  mk_policy "agent-deny-large" "agent" "payment.transfer" "*" "deny" 10
            {[ "amount_min" := AInt 1000 ]}.

Definition domain_finance_approval : gmap string value :=
  mk_policy "domain-finance-approval" "domain" "payment.transfer" "finance-*"
            "require_approval" 20 {[ "amount_min" := AInt 10000 ]}.

Definition demo_repository : PolicyRepository.t :=
  {| PolicyRepository.policies :=
       [ (AStr "agent-allow-small", agent_allow_small);
         (AStr "agent-deny-large", agent_deny_large);
         (AStr "domain-finance-approval", domain_finance_approval) ] |}.

Definition mk_result (id level : string) (priority : Z) (effect : string)
    (matched : bool) : match_result :=
  {| mr_policy := VStr id; mr_level := VStr level; mr_priority := VInt priority;
     mr_effect := VStr effect; mr_matches := matched;
     mr_result := if matched then effect else "not_applicable" |}.



(** A policy whose effect is none of the three recognized ones, and the
    match result the loop builds for it when it matches. *)
Definition permit_policy : gmap string value :=
  mk_policy "agent-permit" "agent" "payment.transfer" "*" "permit" 10 ∅.

Definition permit_results : list match_result :=
  [ {| mr_policy := VStr "agent-permit"; mr_level := VStr "agent";
       mr_priority := VInt 10; mr_effect := VStr "permit";
       mr_matches := true; mr_result := "unknown" |} ].

(** The context of a payment request as the demo issues it. *)
Definition payment_context (subject : string) (amount : option Z)
  : gmap string value :=
  build_context (VStr subject) (VStr "payment.transfer") VNone
    (match amount with
     | Some z => {[ "amount" := VInt z ]}
     | None => ∅
     end).


(** ** Further notions used in the statements *)

(** Some matched result has the given outcome. *)
Definition has_matched (r : string) (rs : list match_result) : Prop :=
  Exists (matched_with r) rs.

Definition key_eqb (a b : Z * Z) : bool :=
  Z.eqb (fst a) (fst b) && Z.eqb (snd a) (snd b).

(** The entry a scan for outcome [r] is after, among those with the
    [(level_rank, priority)] pair [k]. *)
Definition in_class (r : string) (k : Z * Z) (m : match_result) : bool :=
  mr_matches m && has_result r m && key_eqb (spec_key m) k.


(** Two allows of equal level and priority, listed before a stronger allow
    that does not match. *)
Definition tied_results : list match_result :=
  [ mk_result "agent-allow-b" "agent" 10 "allow" true;
    mk_result "agent-allow-a" "agent" 10 "allow" true;
    mk_result "agent-allow-c" "agent" 5 "allow" false ].

(** The enterprise policy of the demo, with its [data_classification]
    entry in [match]. *)
Definition enterprise_pii_protection : gmap string value :=
  <["resource" := VStr "external"]>
    (mk_policy "enterprise-pii-protection" "enterprise" "data.export" "*" "deny" 1
               {[ "data_classification" := AStr "pii" ]}).

Definition export_context (classification : string) : gmap string value :=
  build_context (VStr "data-agent-1") (VStr "data.export") (VStr "external")
    {[ "data_classification" := VStr classification ]}.

(** A policy that bounds the amount on both sides. *)
Definition range_policy (lo hi : Z) : gmap string value :=
  mk_policy "agent-range" "agent" "payment.transfer" "*" "allow" 10
            (<["amount_min" := AInt lo]> {[ "amount_max" := AInt hi ]}).

(** ** The rest of the policy store ([policy_repository.py])

    Dictionaries whose keys are arbitrary hashable values are kept as their
    entries in insertion order; a key is found when it is the same object
    as the one looked for, or equal to it. *)

(** [d.get(k)] *)
Fixpoint entries_get {V : Type} (d : list (atom * V)) (k : atom) : option V :=
  match d with
  | [] => None
  | (k', v) :: d' => if atom_same k' k then Some v else entries_get d' k
  end.

(** [d[k] = v]: an equal key keeps its place and its key object, a new key
    goes last. *)
Fixpoint entries_set {V : Type} (d : list (atom * V)) (k : atom) (v : V)
  : list (atom * V) :=
  match d with
  | [] => [(k, v)]
  | (k', v') :: d' =>
      if atom_same k' k then (k', v) :: d' else (k', v') :: entries_set d' k v
  end.

(** [s.add(x)] on a set kept as the list of its members. *)
Definition set_add (s : list atom) (x : atom) : list atom :=
  if existsb (fun y => atom_same y x) s then s else s ++ [x].

(** [index[key].add(policy_id)] on a [defaultdict(set)]: the key is hashed,
    which raises on a dictionary; a missing key starts from the empty set. *)
Definition index_add (index : list (atom * list atom)) (key : value)
    (policy_id : atom) : result (list (atom * list atom)) :=
  match key with
  | VDict _ => Raise TypeError
  | VAtom k =>
      Ok (entries_set index k (set_add (default [] (entries_get index k)) policy_id))
  end.

Module Repository.

(** The state of a [PolicyRepository] object: the policies and the three
    secondary indexes. *)
Record state : Type := {
  repo : PolicyRepository.t;
  action_index : list (atom * list atom);
  subject_index : list (atom * list atom);
  resource_index : list (atom * list atom)
}.

(** [__init__] without a policy directory. *)
Definition empty : state :=
  {| repo := {| PolicyRepository.policies := [] |};
     action_index := []; subject_index := []; resource_index := [] |}.

(** [add_policy] mutates the object; the state it leaves is returned along
    with the outcome, so that an update interrupted by an exception shows. *)
Definition add_policy (self : state) (policy : gmap string value)
  : state * result unit :=
  let policy_id := dict_get policy "id" VNone in
  if negb (py_truthy policy_id) then (self, Ok tt) else
  match policy_id with
  | VDict _ => (self, Raise TypeError)
  | VAtom id =>
      let s1 :=
        {| repo := {| PolicyRepository.policies :=
                        entries_set (PolicyRepository.policies (repo self)) id policy |};
           action_index := action_index self;
           subject_index := subject_index self;
           resource_index := resource_index self |} in
      match index_add (action_index self) (dict_get policy "action" (VStr "*")) id with
      | Raise e => (s1, Raise e)
      | Ok ai =>
      let s2 :=
        {| repo := repo s1; action_index := ai;
           subject_index := subject_index self;
           resource_index := resource_index self |} in
      match index_add (subject_index self) (dict_get policy "subject" (VStr "*")) id with
      | Raise e => (s2, Raise e)
      | Ok si =>
      let s3 :=
        {| repo := repo s1; action_index := ai; subject_index := si;
           resource_index := resource_index self |} in
      match index_add (resource_index self) (dict_get policy "resource" (VStr "*")) id with
      | Raise e => (s3, Raise e)
      | Ok ri =>
          ({| repo := repo s1; action_index := ai; subject_index := si;
              resource_index := ri |}, Ok tt)
      end end end
  end.

(** [get]: the key is hashed, which raises on a dictionary. *)
Definition get (self : state) (policy_id : value)
  : result (option (gmap string value)) :=
  match policy_id with
  | VDict _ => Raise TypeError
  | VAtom id => Ok (entries_get (PolicyRepository.policies (repo self)) id)
  end.

(** The dictionary that [load_policies_from_yaml] builds from one entry
    [p] of the parsed document. *)
Definition normalize (p : gmap string value) : gmap string value :=
  <["id" := dict_get p "id" VNone]>
  (<["action" := dict_get p "action" VNone]>
  (<["subject" := dict_get p "subject" (VStr "*")]>
  (<["resource" := dict_get p "resource" (VStr "*")]>
  (<["effect" := dict_get p "effect" (VStr "deny")]>
  (<["description" := dict_get p "description" (VStr "")]>
  (<["level" := dict_get p "level" (VStr "agent")]>
  (<["match" := dict_get p "match" empty_dict]>
  (<["priority" := dict_get p "priority" (VInt 50)]> ∅)))))))).

(** The loop of [load_policies_from_yaml] over the entries of the parsed
    document ([data.get('policies', [])]); reading and parsing the file is
    not part of the model.  An exception of [add_policy] ends the loop. *)
Fixpoint load_policies (self : state) (entries : list (gmap string value))
  : state * result (list (gmap string value)) :=
  match entries with
  | [] => (self, Ok [])
  | p :: rest =>
      let policy := normalize p in
      if py_truthy (dict_get policy "id" VNone) &&
         py_truthy (dict_get policy "action" VNone)
      then
        match add_policy self policy with
        | (self', Raise e) => (self', Raise e)
        | (self', Ok _) =>
            match load_policies self' rest with
            | (self'', Ok policies) => (self'', Ok (policy :: policies))
            | (self'', Raise e) => (self'', Raise e)
            end
        end
      else load_policies self rest
  end.

End Repository.

(** Two scalars that a dictionary identifies (the same object, or equal)
    have the same canonical form. *)
Definition canon (a : atom) : number + atom :=
  match num_of a with
  | Some (Fin q) => inl (Fin (Qred q))
  | Some n => inl n
  | None => inr a
  end.

(** The keys of a dictionary are pairwise different: no two are the same
    object or equal. *)
Definition distinct_keys {V : Type} (d : list (atom * V)) : Prop :=
  NoDup (map (fun kv => canon (fst kv)) d).

(** The test [policy['id'] and policy['action']] of the loader, on the
    raw entry. *)
Definition loadable (p : gmap string value) : bool :=
  py_truthy (dict_get p "id" VNone) && py_truthy (dict_get p "action" VNone).

(** The index has [policy_id] in the set stored under [key]. *)
Definition indexed (index : list (atom * list atom)) (key policy_id : atom) : Prop :=
  exists ids, entries_get index key = Some ids /\
              existsb (fun y => atom_same y policy_id) ids = true.

(** The id of a policy is the key [k]: the same object, or equal. *)
Definition has_id (k : atom) (policy : gmap string value) : bool :=
  py_same (dict_get policy "id" VNone) (VAtom k).


(** A raw entry whose action is a mapping. *)
Definition broken_entry : gmap string value :=
  <["id" := VStr "broken"]>
    {[ "action" := VDict {[ "name" := AStr "payment.transfer" ]} ]}.

(** Every entry of the store sits under a key equal to the id of its
    policy, that id is true-valued, and no two keys are equal. *)
Definition well_keyed (d : list (atom * gmap string value)) : Prop :=
  distinct_keys d /\
  Forall (fun kv => exists id, dict_get (snd kv) "id" VNone = VAtom id /\
                               atom_same (fst kv) id = true /\
                               py_truthy (VAtom id) = true) d.

(** ** The payment tool of the agent ([adapters/adk_adapter.py])

    [_process_payment] is modelled as the function from its arguments to
    the dictionary it returns.  Its two logging calls only format the values
    at hand and are left out; the coroutine has no suspension point. *)

(** [f"TXN-{n:06d}"], before rendering. *)
Inductive transaction : Set :=
| TXN (n : Z).

(** The dictionary [_process_payment] returns; the key [transaction_id] is
    present in the approved case only. *)
Record payment : Type := {
  pay_status : string;
  pay_message : list piece;
  pay_transaction_id : option transaction;
  pay_policy : value;
  pay_reason : list piece;
  pay_trace : list match_result
}.

Definition action_map : gmap string string :=
  <["transfer" := "payment.transfer"]>
    (<["wire" := "payment.wire"]> (<["payment" := "payment.transfer"]> ∅)).

(** [action_map.get(type, dflt)]: the key is hashed first. *)
Definition action_map_get (type : value) (dflt : string) : result string :=
  match type with
  | VDict _ => Raise TypeError
  | VAtom (AStr s) => Ok (default dflt (action_map !! s))
  | VAtom _ => Ok dflt
  end.

Section ProcessPayment.

(** Python's [hash] on a triple of hashable values: an integer that depends
    on the interpreter and, for strings, on the process. *)
Variable py_hash : atom -> atom -> atom -> Z.

(** [hash((agent_id, amount, recipient))]: a mapping cannot be hashed. *)
Definition hash_triple (agent_id : string) (amount recipient : value) : result Z :=
  match amount, recipient with
  | VAtom a, VAtom r => Ok (py_hash (AStr agent_id) a r)
  | _, _ => Raise TypeError
  end.

Definition _process_payment (repository : PolicyRepository.t) (agent_id : string)
    (amount recipient type : value) : result payment :=
  action ← action_map_get type "payment.transfer";
  eval_all ← evaluate_all repository (VStr agent_id) (VStr action)
                (VStr "payment_system")
                (Some (<["amount" := amount]> {[ "recipient" := recipient ]}));
  let final := final eval_all in
  let matches := matches eval_all in
  if allow final then
    h ← hash_triple agent_id amount recipient;
    Ok {| pay_status := "approved";
          pay_message := [Lit "Payment of $"; Fmt amount; Lit " to ";
                          Fmt recipient; Lit " approved"];
          pay_transaction_id := Some (TXN (Z.abs h mod 1000000));
          pay_policy := matched_policy final;
          pay_reason := reason final;
          pay_trace := matches |}
  else
    let status := "denied" in
    Ok {| pay_status := status;
          pay_message := ([Lit "Payment "; Lit status; Lit ": "] ++ reason final)%list;
          pay_transaction_id := None;
          pay_policy := matched_policy final;
          pay_reason := reason final;
          pay_trace := matches |}.

End ProcessPayment.

(** The trace of the demo store for a transfer of 500 by a finance agent
    through the payment tool. *)
Definition matches_of_demo_payment : list match_result :=
  [ mk_result "agent-allow-small" "agent" 10 "allow" true;
    mk_result "agent-deny-large" "agent" 10 "deny" false;
    mk_result "domain-finance-approval" "domain" 20 "require_approval" false ].

(** What the payment tool returns for that transfer when the hash of the
    triple is 42. *)
Definition demo_payment : payment :=
  {| pay_status := "approved";
     pay_message := [Lit "Payment of $"; Fmt (VInt 500); Lit " to ";
                     Fmt (VStr "vendor"); Lit " approved"];
     pay_transaction_id := Some (TXN 42);
     pay_policy := VStr "agent-allow-small";
     pay_reason := [Lit "Allow by policy "; Fmt (VStr "agent-allow-small")];
     pay_trace := matches_of_demo_payment |}.

(** * Properties *)

(** ** The error monad *)

Lemma bind_Ok {A B : Type} (m : result A) (f : A -> result B) (b : B) :
  m ≫= f = Ok b -> exists a, m = Ok a /\ f a = Ok b.
Proof. destruct m as [a|e]; simpl; [eauto | discriminate]. Qed.

Ltac inv_bind H :=
  let a := fresh "a" in
  let Ha := fresh "Ha" in
  apply bind_Ok in H; destruct H as (a & Ha & H).

(** ** Numbers *)

Lemma Qcompare_inject_Z (a b : Z) :
  Qcompare (inject_Z a) (inject_Z b) = Z.compare a b.
Proof. unfold Qcompare. cbn. now rewrite !Z.mul_1_r. Qed.

(** ** Strings *)

Lemma append_nil (s : string) : String.append EmptyString s = s.
Proof. reflexivity. Qed.

Lemma append_cons (c : ascii) (q s : string) :
  String.append (String c q) s = String c (String.append q s).
Proof. reflexivity. Qed.

Lemma endswith_spec (s suf : string) :
  endswith s suf = true <-> exists q, s = String.append q suf.
Proof.
  induction s as [|c s IH]; cbn [endswith].
  - rewrite orb_false_r. split.
    + intros H. apply String.eqb_eq in H. exists EmptyString. exact H.
    + intros [[|c q] Hq]; [|discriminate].
      rewrite append_nil in Hq. subst suf. reflexivity.
  - rewrite orb_true_iff, IH. split.
    + intros [H | [q Hq]].
      * apply String.eqb_eq in H. exists EmptyString. exact H.
      * exists (String c q). rewrite append_cons. now rewrite Hq.
    + intros [[|c' q] Hq].
      * left. rewrite append_nil in Hq. subst suf. apply String.eqb_refl.
      * right. exists q. rewrite append_cons in Hq. congruence.
Qed.

Lemma startswith_spec (s pre : string) :
  startswith s pre = true <-> exists r, s = String.append pre r.
Proof.
  revert s. induction pre as [|c pre IH]; intros s; cbn [startswith].
  - split; eauto.
  - destruct s as [|d s].
    + split; [discriminate | intros [r Hr]; discriminate].
    + rewrite andb_true_iff, IH, Ascii.eqb_eq. split.
      * intros [-> [r ->]]. eauto.
      * intros [r Hr]. rewrite append_cons in Hr. injection Hr as -> ->. eauto.
Qed.

Lemma drop_last_app (q : string) (c : ascii) :
  drop_last (String.append q (String c EmptyString)) = q.
Proof.
  induction q as [|d q IH]; [reflexivity|].
  rewrite append_cons. cbn [drop_last]. rewrite IH.
  destruct q; reflexivity.
Qed.

Lemma atom_eq_str (s t : string) : atom_eq (AStr s) (AStr t) = String.eqb s t.
Proof. reflexivity. Qed.

Lemma py_eq_str_r (v : value) (s : string) :
  py_eq v (VStr s) = true <-> v = VStr s.
Proof.
  split; [|intros ->; apply String.eqb_refl].
  destruct v as [[| b | z | | t | [q | | i]] | d];
    cbn [py_eq VStr atom_eq num_of]; try discriminate.
  intros H. apply String.eqb_eq in H. now subst.
Qed.

(** ** Pattern matching *)

Lemma matches_pattern_str (p v : string) :
  _matches_pattern (VStr p) (VStr v) =
  Ok (String.eqb p "*" || String.eqb p v ||
      (endswith p "*" && startswith v (drop_last p))).
Proof.
  unfold _matches_pattern, VStr. simpl.
  destruct (String.eqb p "*"); [reflexivity|].
  destruct (String.eqb p v); [reflexivity|].
  simpl. destruct (endswith p "*"); reflexivity.
Qed.

(** C6 (pattern matching correctness): on strings, [_matches_pattern p v]
    returns true exactly when [p] is the wildcard, or [p] equals [v], or [p]
    is a prefix followed by a trailing star and [v] starts with that prefix.
    Letter case is significant, a star that is not last is an ordinary
    character, and regular-expression syntax has no meaning. *)
Theorem matches_pattern_correct :
  (forall p v : string,
     exists b, _matches_pattern (VStr p) (VStr v) = Ok b /\
               (b = true <-> spec_matches_pattern p v)) /\
  _matches_pattern (VStr "payment-*") (VStr "payment-agent-1") = Ok true /\
  _matches_pattern (VStr "payment-*") (VStr "finance-agent-1") = Ok false /\
  _matches_pattern (VStr "finance-agent-1") (VStr "finance-agent-1") = Ok true /\
  (forall v : string, _matches_pattern (VStr "*") (VStr v) = Ok true) /\
  _matches_pattern (VStr "payment-*") (VStr "Payment-agent-1") = Ok false /\
  _matches_pattern (VStr "pay.*") (VStr "payment") = Ok false /\
  _matches_pattern (VStr "*-agent") (VStr "payment-agent") = Ok false /\
  _matches_pattern (VStr "pay*-agent") (VStr "payment-agent") = Ok false.
Proof.
  split; [|repeat split; try reflexivity].
  intros p v. eexists. split; [apply matches_pattern_str|].
  unfold spec_matches_pattern.
  rewrite !orb_true_iff, andb_true_iff, !String.eqb_eq,
    endswith_spec, startswith_spec.
  split.
  - intros [[H | H] | [[q Hq] [r Hr]]]; [now left | now right; left |].
    right; right. subst p. rewrite drop_last_app in Hr. eauto.
  - intros [H | [H | (q & r & Hp & Hv)]]; [now left; left | now left; right |].
    right. subst p. rewrite drop_last_app. eauto.
Qed.

(** ** The stable sort *)

Section SortedFacts.
Context {K A : Type}.
Variable lt : K -> K -> result bool.

Lemma insert_stable_perm (x : K * A) (l l' : list (K * A)) :
  insert_stable lt x l = Ok l' -> Permutation (x :: l) l'.
Proof.
  revert l'. induction l as [|y l IH]; intros l' H; cbn [insert_stable] in H.
  - injection H as <-. apply Permutation_refl.
  - inv_bind H. destruct a.
    + inv_bind H. injection H as <-.
      eapply perm_trans; [apply perm_swap|].
      apply perm_skip. now apply IH.
    + injection H as <-. apply Permutation_refl.
Qed.

Lemma sort_stable_perm (l l' : list (K * A)) :
  sort_stable lt l = Ok l' -> Permutation l l'.
Proof.
  revert l'. induction l as [|x l IH]; intros l' H; cbn [sort_stable] in H.
  - injection H as <-. apply perm_nil.
  - inv_bind H. apply insert_stable_perm in H.
    eapply perm_trans; [|exact H]. apply perm_skip. now apply IH.
Qed.

Lemma decorate_snd (key : A -> result K) (l : list A) (d : list (K * A)) :
  decorate key l = Ok d -> map snd d = l.
Proof.
  revert d. induction l as [|x l IH]; intros d H; cbn [decorate] in H.
  - injection H as <-. reflexivity.
  - inv_bind H. inv_bind H. injection H as <-.
    cbn [map snd]. f_equal. now apply IH.
Qed.

(** Whenever [sorted] returns, the result is a rearrangement of its input. *)
Lemma sorted_perm (key : A -> result K) (l l' : list A) :
  sorted lt key l = Ok l' -> Permutation l l'.
Proof.
  unfold sorted. intros H. inv_bind H. inv_bind H. injection H as <-.
  apply decorate_snd in Ha. rewrite <- Ha.
  apply Permutation_map. now apply sort_stable_perm.
Qed.

(** Keys on which [lt] never raises and decides a transitive order [le]. *)
Variable good : K -> Prop.
Variable le : K -> K -> Prop.
Hypothesis lt_decides : forall a b, good a -> good b ->
  exists c, lt a b = Ok c /\ (c = true -> le a b) /\ (c = false -> le b a).
Hypothesis le_trans : forall a b c, le a b -> le b c -> le a c.

Let le1 (x y : K * A) : Prop := le (fst x) (fst y).

Lemma insert_stable_sorted (x : K * A) (l : list (K * A)) :
  good (fst x) -> Forall (fun y => good (fst y)) l -> StronglySorted le1 l ->
  exists l', insert_stable lt x l = Ok l' /\ StronglySorted le1 l'.
Proof.
  intros Hx Hl Hs. induction l as [|y l IH]; cbn [insert_stable].
  - eexists; split; [reflexivity|]. repeat constructor.
  - apply List.Forall_cons_iff in Hl as [Hy Hl].
    apply StronglySorted_inv in Hs as [Hs Hyl].
    destruct (lt_decides (fst y) (fst x) Hy Hx) as (c & -> & Ht & Hf).
    cbn. destruct c.
    + destruct (IH Hl Hs) as (l' & Hins & Hs'). rewrite Hins. cbn.
      eexists; split; [reflexivity|]. constructor; [exact Hs'|].
      apply insert_stable_perm in Hins.
      eapply Permutation_Forall; [exact Hins|].
      constructor; [now apply Ht | exact Hyl].
    + eexists; split; [reflexivity|].
      assert (Hxy : le1 x y) by now apply Hf.
      constructor; [now constructor|].
      constructor; [exact Hxy|].
      eapply List.Forall_impl; [|exact Hyl].
      intros z Hz. unfold le1 in *. eauto.
Qed.

Lemma sort_stable_sorted (l : list (K * A)) :
  Forall (fun y => good (fst y)) l ->
  exists l', sort_stable lt l = Ok l' /\ Permutation l l' /\ StronglySorted le1 l'.
Proof.
  induction l as [|x l IH]; intros Hl; cbn [sort_stable].
  - eexists; repeat split; constructor.
  - apply List.Forall_cons_iff in Hl as [Hx Hl].
    destruct (IH Hl) as (s & -> & Hp & Hs). cbn.
    destruct (insert_stable_sorted x s Hx) as (l' & Hins & Hs'); [|exact Hs|].
    + eapply Permutation_Forall; [exact Hp | exact Hl].
    + exists l'. repeat split; [exact Hins | | exact Hs'].
      apply insert_stable_perm in Hins.
      eapply perm_trans; [|exact Hins]. now apply perm_skip.
Qed.

Lemma decorate_pure (key : A -> result K) (keyf : A -> K) (l : list A) :
  Forall (fun x => key x = Ok (keyf x)) l ->
  decorate key l = Ok (map (fun x => (keyf x, x)) l).
Proof.
  induction 1 as [|x l Hx _ IH]; cbn [decorate map]; [reflexivity|].
  rewrite Hx, IH. reflexivity.
Qed.

Lemma sorted_map_key (keyf : A -> K) (l : list A) :
  StronglySorted le1 (map (fun x => (keyf x, x)) l) ->
  StronglySorted (fun x y => le (keyf x) (keyf y)) l.
Proof.
  induction l as [|x l IH]; cbn [map]; intros H; [constructor|].
  apply StronglySorted_inv in H as [Hs Hx].
  constructor; [now apply IH|].
  rewrite List.Forall_map in Hx. exact Hx.
Qed.

(** On good keys [sorted] returns a rearrangement that is ordered by [le]. *)
Lemma sorted_total (key : A -> result K) (keyf : A -> K) (l : list A) :
  Forall (fun x => key x = Ok (keyf x) /\ good (keyf x)) l ->
  exists l', sorted lt key l = Ok l' /\ Permutation l l' /\
             StronglySorted (fun x y => le (keyf x) (keyf y)) l'.
Proof.
  intros H. unfold sorted.
  rewrite (decorate_pure key keyf l).
  2:{ eapply List.Forall_impl; [|exact H]. now intros x [Hk _]. }
  cbn.
  destruct (sort_stable_sorted (map (fun x => (keyf x, x)) l))
    as (s & -> & Hp & Hs).
  { rewrite List.Forall_map. eapply List.Forall_impl; [|exact H].
    now intros x [_ Hg]. }
  cbn. apply Permutation_sym, Permutation_map_inv in Hp as (l'' & -> & Hp).
  rewrite List.map_map, List.map_id in *.
  exists l''. repeat split; [now apply Permutation_sym|].
  now apply sorted_map_key.
Qed.

End SortedFacts.

(** ** The sort key *)

Lemma LEVEL_ORDER_lookup (s : string) :
  default 3 (LEVEL_ORDER !! s) = spec_level_rank (VStr s).
Proof.
  unfold LEVEL_ORDER, spec_level_rank, VStr.
  destruct (String.eqb_spec s "enterprise") as [->|H1].
  { now rewrite lookup_insert_eq. }
  rewrite lookup_insert_ne by congruence.
  destruct (String.eqb_spec s "domain") as [->|H2].
  { now rewrite lookup_insert_eq. }
  rewrite lookup_insert_ne by congruence.
  destruct (String.eqb_spec s "agent") as [->|H3].
  { now rewrite lookup_insert_eq. }
  rewrite lookup_insert_ne by congruence.
  destruct (String.eqb_spec s "runtime") as [->|H4].
  { now rewrite lookup_insert_eq. }
  rewrite lookup_insert_ne by congruence.
  now rewrite lookup_empty.
Qed.

Lemma LEVEL_ORDER_get_rank (level : value) :
  hashable level = true -> LEVEL_ORDER_get level 3 = Ok (spec_level_rank level).
Proof.
  destruct level as [[| b | z | | s | fs] | d]; cbn; try reflexivity; try discriminate.
  intros _. f_equal. apply LEVEL_ORDER_lookup.
Qed.

Lemma sort_key_pure (m : match_result) :
  sortable m = true ->
  sort_key m = Ok (spec_level_rank (mr_level m), mr_priority m).
Proof.
  unfold sortable, sort_key. intros H. apply andb_true_iff in H as [H _].
  now rewrite LEVEL_ORDER_get_rank.
Qed.

Lemma is_int_inv (v : value) : is_int v = true -> v = VInt (int_of v).
Proof. destruct v as [[| | | | |]|]; cbn; try discriminate. reflexivity. Qed.

Lemma key_lt_decides (a b : Z * value) :
  is_int (snd a) = true -> is_int (snd b) = true ->
  exists c, key_lt a b = Ok c /\
            (c = true -> key_le a b) /\ (c = false -> key_le b a).
Proof.
  destruct a as [r1 p1], b as [r2 p2]. cbn [fst snd]. intros H1 H2.
  destruct p1 as [[| | n1 | | |]|]; try discriminate H1.
  destruct p2 as [[| | n2 | | |]|]; try discriminate H2.
  unfold key_lt, key_le, lex_le. cbn [fst snd int_of].
  destruct (Z.eqb_spec r1 r2) as [->|Hr]; cbn [negb].
  - unfold py_same, py_lt, py_compare.
    cbn [atom_same atom_eq atom_compare numeric andb num_of num_compare
         mbind result_bind].
    rewrite Qcompare_inject_Z.
    destruct (n1 ?= n2)%Z eqn:E; cbn.
    + apply Z.compare_eq_iff in E.
      eexists; split; [reflexivity|]. split; [discriminate|]. intros _. lia.
    + change (n1 < n2)%Z in E.
      eexists; split; [reflexivity|]. split; [intros _; lia | discriminate].
    + change (n1 > n2)%Z in E.
      eexists; split; [reflexivity|]. split; [discriminate | intros _; lia].
  - eexists; split; [reflexivity|].
    destruct (Z.ltb_spec r1 r2); split; intros; try discriminate; lia.
Qed.

Lemma key_le_trans (a b c : Z * value) : key_le a b -> key_le b c -> key_le a c.
Proof. unfold key_le, lex_le. cbn [fst snd]. lia. Qed.

Lemma lex_le_refl (a : Z * Z) : lex_le a a.
Proof. unfold lex_le. lia. Qed.

(** Sortable results are sorted without an exception, into a rearrangement
    ordered by [(level_rank, priority)]. *)
Lemma sorted_results (l : list match_result) :
  Forall (fun m => sortable m = true) l ->
  exists l', sorted key_lt sort_key l = Ok l' /\ Permutation l l' /\
             StronglySorted (fun x y => lex_le (spec_key x) (spec_key y)) l'.
Proof.
  intros H.
  apply (sorted_total key_lt (fun k => is_int (snd k) = true) key_le
           key_lt_decides key_le_trans sort_key
           (fun m => (spec_level_rank (mr_level m), mr_priority m))).
  eapply List.Forall_impl; [|exact H]. intros m Hm. split.
  - now apply sort_key_pure.
  - cbn. unfold sortable in Hm. now apply andb_true_iff in Hm as [_ Hm].
Qed.

(** ** Final decision resolution *)

Lemma has_result_true (r : string) (m : match_result) :
  has_result r m = true <-> mr_result m = r.
Proof. unfold has_result. apply String.eqb_eq. Qed.

Lemma find_absent (r : string) (l : list match_result) (m : match_result) :
  find (has_result r) l = None -> In m l -> mr_result m <> r.
Proof.
  intros Hf Hin Hr. apply (find_none _ _ Hf) in Hin.
  apply has_result_true in Hr. congruence.
Qed.

Lemma applicable_sorted_In (rs srt : list match_result) (m : match_result) :
  sorted key_lt sort_key (List.filter mr_matches rs) = Ok srt ->
  In m srt <-> In m rs /\ mr_matches m = true.
Proof.
  intros Hs. apply sorted_perm in Hs. rewrite <- filter_In. split.
  - apply Permutation_in. now apply Permutation_sym.
  - now apply Permutation_in.
Qed.

(** What a returned decision is made of: either one of the two default-deny
    dictionaries, when no matched result has a recognized outcome, or the
    first entry of the sorted matched results in the strongest effect class
    that is present. *)
Lemma compute_final_decision_selects (rs : list match_result) (d : decision) :
  _compute_final_decision rs = Ok d ->
  (exists why,
      d = {| allow := false; effect := "deny"; reason := [Lit why];
             matched_policy := VStr "default-deny" |} /\
      forall m, In m rs -> mr_matches m = true -> ~ recognized (mr_result m))
  \/
  (exists srt m,
      sorted key_lt sort_key (List.filter mr_matches rs) = Ok srt /\
      find (has_result (effect d)) srt = Some m /\
      recognized (effect d) /\
      matched_policy d = mr_policy m /\
      allow d = String.eqb (effect d) "allow" /\
      (effect d <> "deny" -> find (has_result "deny") srt = None) /\
      (effect d = "allow" -> find (has_result "require_approval") srt = None)).
Proof.
  unfold _compute_final_decision. intros H.
  remember (List.filter mr_matches rs) as app0 eqn:Happ in H.
  destruct app0 as [|m0 app].
  - injection H as <-. left. eexists. split; [reflexivity|].
    intros m Hin Hm. exfalso.
    assert (Hf : In m (List.filter mr_matches rs)) by now apply filter_In.
    rewrite <- Happ in Hf. exact Hf.
  - inv_bind H. rename a into srt.
    rewrite Happ in Ha.
    destruct (find (has_result "deny") srt) as [m|] eqn:Hd.
    { injection H as <-. right. exists srt, m. cbn.
      repeat split; try assumption; try reflexivity; try congruence;
        unfold recognized; auto. }
    destruct (find (has_result "require_approval") srt) as [m|] eqn:Hr.
    { injection H as <-. right. exists srt, m. cbn.
      repeat split; try assumption; try reflexivity; try congruence;
        unfold recognized; auto. }
    destruct (find (has_result "allow") srt) as [m|] eqn:Hal.
    { injection H as <-. right. exists srt, m. cbn.
      repeat split; try assumption; try reflexivity; try congruence;
        unfold recognized; auto. }
    injection H as <-. left. eexists. split; [reflexivity|].
    intros m Hin Hm [Hrec | [Hrec | Hrec]];
      (eapply find_absent; [ | apply (applicable_sorted_In rs srt m Ha); eauto | exact Hrec ]);
      assumption.
Qed.

(** The resolution returns whenever the matched results can be sorted. *)
Lemma compute_final_decision_returns (rs : list match_result) :
  sortable_results rs -> returns (_compute_final_decision rs).
Proof.
  intros Hs. unfold returns, _compute_final_decision.
  destruct (List.filter mr_matches rs) as [|m0 app] eqn:Happ; [eauto|].
  rewrite <- Happ.
  destruct (sorted_results (List.filter mr_matches rs)) as (srt & -> & _).
  { apply List.Forall_forall. intros m Hm. apply filter_In in Hm as [Hin Hm].
    now apply Hs. }
  cbn. repeat (match goal with |- context [find ?f ?l] => destruct (find f l) end); eauto.
Qed.

Lemma find_strongly_sorted_min {A : Type} (R : A -> A -> Prop) (P : A -> bool)
    (l : list A) (m : A) :
  (forall x, R x x) -> StronglySorted R l -> find P l = Some m ->
  forall x, In x l -> P x = true -> R m x.
Proof.
  intros Hrefl Hs. induction Hs as [|y l Hs IH Hy]; cbn [find]; [discriminate|].
  intros Hf x Hin Hx. destruct (P y) eqn:Hpy.
  - injection Hf as <-. destruct Hin as [<- | Hin]; [apply Hrefl|].
    rewrite List.Forall_forall in Hy. now apply Hy.
  - destruct Hin as [<- | Hin]; [congruence|]. now apply IH.
Qed.









(** C4 (unrecognized effect): a matched policy whose effect is none of
    allow, deny, require_approval gets the outcome "unknown"; no scan selects
    an "unknown" entry, so a returned decision is either a default deny or
    stems from a matched result with a recognized outcome, and allow is only
    granted by a matched allow; when every matched result is "unknown" the
    decision has allow false, effect deny and matched_policy
    "default-deny". *)
Theorem unrecognized_effect_is_moot :
  (forall p : gmap string value,
     dict_get p "effect" VNone <> VStr "deny" ->
     dict_get p "effect" VNone <> VStr "allow" ->
     dict_get p "effect" VNone <> VStr "require_approval" ->
     _result_for_single_policy p true = "unknown") /\
  (forall m r, mr_result m = "unknown" -> recognized r -> has_result r m = false) /\
  (forall rs d,
     _compute_final_decision rs = Ok d ->
     (allow d = false /\ effect d = "deny" /\
      matched_policy d = VStr "default-deny") \/
     (exists m, In m rs /\ mr_matches m = true /\ mr_result m <> "unknown" /\
                recognized (mr_result m) /\ effect d = mr_result m /\
                matched_policy d = mr_policy m /\
                (allow d = true -> mr_result m = "allow"))) /\
  (forall rs,
     sortable_results rs ->
     (forall m, In m rs -> mr_matches m = true -> mr_result m = "unknown") ->
     exists d, _compute_final_decision rs = Ok d /\
               allow d = false /\ effect d = "deny" /\
               matched_policy d = VStr "default-deny").
Proof.
  assert (Hunk : ~ recognized "unknown").
  { intros [H | [H | H]]; discriminate H. }
  split; [|split; [|split]].
  - intros p Hd Ha Hr. unfold _result_for_single_policy. cbn [negb].
    destruct (py_eq _ (VStr "deny")) eqn:E1.
    { apply py_eq_str_r in E1. contradiction. }
    destruct (py_eq _ (VStr "allow")) eqn:E2.
    { apply py_eq_str_r in E2. contradiction. }
    destruct (py_eq _ (VStr "require_approval")) eqn:E3.
    { apply py_eq_str_r in E3. contradiction. }
    reflexivity.
  - intros m r Hm Hr. destruct (has_result r m) eqn:E; [|reflexivity].
    apply has_result_true in E. exfalso. apply Hunk. congruence.
  - intros rs d Hd.
    destruct (compute_final_decision_selects rs d Hd)
      as [(why & -> & _) | (srt & m & Hs & Hf & Hrec & Hp & Hal & _)].
    + left. repeat split.
    + right. exists m.
      pose proof (find_some _ _ Hf) as [Hin Hr]. apply has_result_true in Hr.
      apply (applicable_sorted_In rs srt m Hs) in Hin as [Hin Hm].
      assert (Hnu : mr_result m <> "unknown").
      { intros Hu. apply Hunk. congruence. }
      assert (Hallow : allow d = true -> mr_result m = "allow").
      { intros Ht. rewrite Hal in Ht. apply String.eqb_eq in Ht. congruence. }
      repeat split; try assumption; congruence.
  - intros rs Hs Hall.
    destruct (compute_final_decision_returns rs Hs) as [d Hd].
    exists d. split; [exact Hd|].
    destruct (compute_final_decision_selects rs d Hd)
      as [(why & -> & _) | (srt & m & Hsrt & Hf & Hrec & _)].
    + repeat split.
    + exfalso. pose proof (find_some _ _ Hf) as [Hin Hr].
      apply has_result_true in Hr.
      apply (applicable_sorted_In rs srt m Hsrt) in Hin as [Hin Hm].
      apply Hunk. rewrite <- (Hall m Hin Hm). congruence.
Qed.

Lemma permit_results_sortable : sortable_results permit_results.
Proof. intros m [<- | []] _. reflexivity. Qed.

Lemma permit_results_unknown (m : match_result) :
  In m permit_results -> mr_matches m = true -> mr_result m = "unknown".
Proof. intros [<- | []] _. reflexivity. Qed.

Lemma unrecognized_effect_is_moot_witness :
  _result_for_single_policy permit_policy true = "unknown" /\
  has_result "allow"
    {| mr_policy := VStr "agent-permit"; mr_level := VStr "agent";
       mr_priority := VInt 10; mr_effect := VStr "permit";
       mr_matches := true; mr_result := "unknown" |} = false /\
  exists d, _compute_final_decision permit_results = Ok d /\
            allow d = false /\ effect d = "deny" /\
            matched_policy d = VStr "default-deny".
Proof.
  destruct unrecognized_effect_is_moot as (H1 & H2 & _ & H4).
  split; [|split].
  - apply H1; vm_compute; discriminate.
  - apply H2; [reflexivity | right; right; reflexivity].
  - exact (H4 permit_results permit_results_sortable permit_results_unknown).
Defined.

(** ** The matching loop *)

Lemma match_all_inv (ps : list (gmap string value)) (c : gmap string value)
    (rs : list match_result) :
  match_all ps c = Ok rs -> Forall2 (is_result_of c) ps rs.
Proof.
  revert rs. induction ps as [|p ps IH]; intros rs H; cbn [match_all] in H.
  - injection H as <-. constructor.
  - inv_bind H. inv_bind H. injection H as <-.
    constructor; [|now apply IH].
    unfold is_result_of. cbn. repeat split. exact Ha.
Qed.



Lemma evaluate_all_inv (repository : PolicyRepository.t)
    (subject action resource : value) (attrs : option (gmap string value))
    (ev : evaluation) :
  evaluate_all repository subject action resource attrs = Ok ev ->
  match_all (PolicyRepository.list repository)
    (build_context subject action resource (default ∅ attrs)) = Ok (matches ev) /\
  _compute_final_decision (matches ev) = Ok (final ev).
Proof.
  unfold evaluate_all. intros H. inv_bind H. inv_bind H. injection H as <-.
  now split.
Qed.





(** ** Evaluation of well-formed data never raises *)

Lemma is_str_inv (v : value) : is_str v = true -> exists s, v = VStr s.
Proof. destruct v as [[| | | | s |]|]; cbn; try discriminate. eauto. Qed.

Lemma is_number_inv (v : value) :
  is_number v = true -> exists a, v = VAtom a /\ numeric a = true.
Proof. destruct v as [a|d]; cbn; [eauto | discriminate]. Qed.

Lemma num_of_numeric (a : atom) (x : number) :
  num_of a = Some x -> numeric a = true.
Proof. destruct a; cbn; try discriminate; reflexivity. Qed.

(** Among booleans, integers and floats the comparison never raises; it is
    that of the numbers, and undefined as soon as a NaN takes part. *)
Lemma py_compare_numeric (a b : atom) :
  numeric a = true -> numeric b = true ->
  py_compare (VAtom a) (VAtom b) =
  Ok (match num_of a, num_of b with
      | Some x, Some y => Some (num_compare x y)
      | _, _ => None
      end).
Proof.
  intros Ha Hb.
  destruct a as [| | | | | [| |]], b as [| | | | | [| |]];
    try discriminate Ha; try discriminate Hb; reflexivity.
Qed.

Lemma py_compare_numbers (a b : atom) (x y : number) :
  num_of a = Some x -> num_of b = Some y ->
  py_compare (VAtom a) (VAtom b) = Ok (Some (num_compare x y)).
Proof.
  intros Ha Hb.
  rewrite (py_compare_numeric a b (num_of_numeric a x Ha) (num_of_numeric b y Hb)).
  now rewrite Ha, Hb.
Qed.

Lemma amount_is_number (c : gmap string value) (dflt : value) :
  is_number (dict_get c "amount" (VInt 0)) = true ->
  is_number dflt = true ->
  is_number (dict_get c "amount" dflt) = true.
Proof. unfold dict_get. destruct (c !! "amount"); cbn; auto. Qed.




(** ** Amount constraints *)

Lemma num_compare_antisym (x y : number) :
  num_compare y x = CompOpp (num_compare x y).
Proof.
  destruct x, y; cbn; try reflexivity. symmetry. apply Qcompare_antisym.
Qed.

Lemma num_leb_int (a b : Z) : num_leb (int a) (int b) = Z.leb a b.
Proof.
  unfold num_leb, int. cbn [num_compare].
  now rewrite Qcompare_inject_Z, Z.leb_compare.
Qed.

Lemma num_leb_trans (x y z : number) :
  num_leb x y = true -> num_leb y z = true -> num_leb x z = true.
Proof.
  unfold num_leb.
  destruct x as [a| |], y as [b| |], z as [c| |]; cbn [num_compare];
    try reflexivity; try discriminate.
  intros H1 H2.
  assert (Hab : (a <= b)%Q).
  { apply Qle_alt. intros E. now rewrite E in H1. }
  assert (Hbc : (b <= c)%Q).
  { apply Qle_alt. intros E. now rewrite E in H2. }
  pose proof (proj1 (Qle_alt a c) (Qle_trans _ _ _ Hab Hbc)) as Hac.
  destruct (a ?= c)%Q; [reflexivity | reflexivity | now destruct Hac].
Qed.

Lemma amount_or_inv (dflt : atom) (n0 n : number) (c : gmap string value) :
  num_of dflt = Some n0 -> amount_or n0 c = Some n ->
  exists a, dict_get c "amount" (VAtom dflt) = VAtom a /\ num_of a = Some n.
Proof.
  unfold amount_or, dict_get. intros Hd H.
  destruct (c !! "amount") as [[a|d]|]; cbn; [eauto | discriminate |].
  injection H as <-. eauto.
Qed.

Lemma py_gt_number (a b : atom) :
  numeric a = true -> numeric b = true ->
  py_gt (VAtom a) (VAtom b) = Ok (negb (not_above a b)).
Proof.
  intros Ha Hb. unfold py_gt, not_above, num_leb.
  rewrite (py_compare_numeric a b Ha Hb). cbn [mbind result_bind mret result_ret].
  destruct (num_of a), (num_of b); try reflexivity.
  destruct (num_compare _ _); reflexivity.
Qed.

Lemma py_lt_number (a b : atom) :
  numeric a = true -> numeric b = true ->
  py_lt (VAtom a) (VAtom b) = Ok (negb (not_below a b)).
Proof.
  intros Ha Hb. unfold py_lt, not_below, num_leb.
  rewrite (py_compare_numeric a b Ha Hb). cbn [mbind result_bind mret result_ret].
  destruct (num_of a) as [x|], (num_of b) as [y|]; try reflexivity.
  rewrite (num_compare_antisym x y).
  destruct (num_compare x y); reflexivity.
Qed.

(** With the three pattern tests passed, [_matches] is decided by the two
    amount constraints of a [match] dictionary with numeric bounds. *)
Lemma matches_amounts (p c : gmap string value) (d : gmap string atom)
    (ahi alo : atom) :
  patterns_match p c ->
  dict_get p "match" empty_dict = VDict d ->
  dict_get c "amount" (VAtom AInf) = VAtom ahi ->
  dict_get c "amount" (VInt 0) = VAtom alo ->
  numeric ahi = true -> numeric alo = true ->
  bound_ok d "amount_max" = true -> bound_ok d "amount_min" = true ->
  _matches p c =
  Ok (match d !! "amount_max" with
      | Some b => not_above ahi b
      | None => true
      end &&
      match d !! "amount_min" with
      | Some b => not_below alo b
      | None => true
      end).
Proof.
  intros (H1 & H2 & H3) Hm Eh El Nh Nl Hmax Hmin.
  unfold bound_ok, is_number in Hmax, Hmin.
  unfold _matches. rewrite H1, H2, H3, Hm, Eh, El.
  cbn [mbind result_bind negb py_in py_getitem].
  destruct (d !! "amount_max") as [bmax|] eqn:Emax.
  - cbn [mbind result_bind].
    rewrite (py_gt_number ahi bmax Nh Hmax). cbn [mbind result_bind].
    destruct (not_above ahi bmax); cbn [negb andb]; [|reflexivity].
    destruct (d !! "amount_min") as [bmin|] eqn:Emin; [|reflexivity].
    cbn [mbind result_bind].
    rewrite (py_lt_number alo bmin Nl Hmin). cbn [mbind result_bind].
    destruct (not_below alo bmin); reflexivity.
  - cbn [mbind result_bind andb].
    destruct (d !! "amount_min") as [bmin|] eqn:Emin; [|reflexivity].
    cbn [mbind result_bind].
    rewrite (py_lt_number alo bmin Nl Hmin). cbn [mbind result_bind].
    destruct (not_below alo bmin); reflexivity.
Qed.

(** The amount the two tests read, for a present and for an absent
    attribute. *)
Lemma amount_present (c : gmap string value) (v dflt : value) :
  c !! "amount" = Some v -> dict_get c "amount" dflt = v.
Proof. unfold dict_get. now intros ->. Qed.

Lemma amount_absent (c : gmap string value) (dflt : value) :
  c !! "amount" = None -> dict_get c "amount" dflt = dflt.
Proof. unfold dict_get. now intros ->. Qed.

Lemma amount_numeric (c : gmap string value) :
  is_number (dict_get c "amount" (VInt 0)) = true ->
  exists ahi alo,
    dict_get c "amount" (VAtom AInf) = VAtom ahi /\
    dict_get c "amount" (VInt 0) = VAtom alo /\
    numeric ahi = true /\ numeric alo = true.
Proof.
  intros H. pose proof (amount_is_number c (VAtom AInf) H eq_refl) as Hinf.
  apply is_number_inv in H as (alo & El & Nl).
  apply is_number_inv in Hinf as (ahi & Eh & Nh).
  exists ahi, alo. auto.
Qed.

Lemma matches_true_patterns (p c : gmap string value) :
  _matches p c = Ok true -> patterns_match p c.
Proof.
  unfold _matches, patterns_match. intros H.
  inv_bind H. destruct a; [|discriminate H]. cbn [negb] in H.
  inv_bind H. destruct a; [|discriminate H]. cbn [negb] in H.
  inv_bind H. destruct a; [|discriminate H].
  repeat split; assumption.
Qed.

Lemma amount_or_both (c : gmap string value) (d1 d2 n : number) :
  amount_or d1 c = Some n ->
  (c !! "amount" = None /\ n = d1 /\ amount_or d2 c = Some d2) \/
  (c !! "amount" <> None /\ amount_or d2 c = Some n).
Proof.
  unfold amount_or. destruct (c !! "amount") as [[a|d]|]; intros H.
  - right. split; [discriminate | exact H].
  - discriminate H.
  - left. injection H as <-. repeat split.
Qed.

Lemma bound_ok_singleton (k k' : string) (b : atom) :
  numeric b = true -> bound_ok {[ k := b ]} k' = true.
Proof.
  intros Hb. unfold bound_ok.
  destruct (({[ k := b ]} : gmap string atom) !! k') as [a|] eqn:E; [|reflexivity].
  apply lookup_singleton_Some in E as [_ <-]. exact Hb.
Qed.

(** A policy with the single bound [amount_max: b], patterns matched. *)
Lemma matches_amount_max (p c : gmap string value) (b a : atom) :
  patterns_match p c ->
  dict_get p "match" empty_dict = VDict {[ "amount_max" := b ]} ->
  numeric b = true ->
  dict_get c "amount" (VAtom AInf) = VAtom a -> numeric a = true ->
  _matches p c = Ok (not_above a b).
Proof.
  intros Hp Hm Hb Ha Na.
  assert (exists alo, dict_get c "amount" (VInt 0) = VAtom alo /\
                      numeric alo = true) as (alo & El & Nl).
  { unfold dict_get in *. destruct (c !! "amount") as [v|]; cbn in *; eauto. }
  rewrite (matches_amounts p c _ a alo Hp Hm Ha El Na Nl
             (bound_ok_singleton _ _ _ Hb) (bound_ok_singleton _ _ _ Hb)).
  rewrite lookup_singleton_eq, lookup_singleton_ne by discriminate.
  now rewrite andb_true_r.
Qed.

(** A policy with the single bound [amount_min: b], patterns matched. *)
Lemma matches_amount_min (p c : gmap string value) (b a : atom) :
  patterns_match p c ->
  dict_get p "match" empty_dict = VDict {[ "amount_min" := b ]} ->
  numeric b = true ->
  dict_get c "amount" (VInt 0) = VAtom a -> numeric a = true ->
  _matches p c = Ok (not_below a b).
Proof.
  intros Hp Hm Hb Ha Na.
  assert (exists ahi, dict_get c "amount" (VAtom AInf) = VAtom ahi /\
                      numeric ahi = true) as (ahi & Eh & Nh).
  { unfold dict_get in *. destruct (c !! "amount") as [v|]; cbn in *; eauto. }
  rewrite (matches_amounts p c _ ahi a Hp Hm Eh Ha Nh Na
             (bound_ok_singleton _ _ _ Hb) (bound_ok_singleton _ _ _ Hb)).
  rewrite lookup_singleton_eq, lookup_singleton_ne by discriminate.
  reflexivity.
Qed.

(** What a successful match says about the bounds: neither test found the
    amount beyond its bound. *)
Lemma matches_true_bounds (p c : gmap string value) (d : gmap string atom) :
  _matches p c = Ok true ->
  dict_get p "match" empty_dict = VDict d ->
  (forall b, d !! "amount_max" = Some b ->
     py_gt (dict_get c "amount" (VAtom AInf)) (VAtom b) = Ok false) /\
  (forall b, d !! "amount_min" = Some b ->
     py_lt (dict_get c "amount" (VInt 0)) (VAtom b) = Ok false).
Proof.
  unfold _matches. intros H Hm.
  inv_bind H. destruct (negb a); [discriminate H|].
  inv_bind H. destruct (negb a0); [discriminate H|].
  inv_bind H. destruct (negb a1); [discriminate H|].
  rewrite Hm in H. cbn [py_in py_getitem mbind result_bind] in H.
  inv_bind H. destruct a2; [discriminate H|].
  inv_bind H. destruct a2; [discriminate H|].
  split; intros b Hb; rewrite Hb in *; cbn [mbind result_bind] in *; assumption.
Qed.

Lemma py_compare_unordered (v w : value) :
  py_compare v w = Ok None -> is_nan v || is_nan w = true.
Proof.
  destruct v as [[| | | | | [| |]]|], w as [[| | | | | [| |]]|];
    cbn; try discriminate; reflexivity.
Qed.

Lemma py_compare_swap (v w : value) (c : comparison) :
  py_compare v w = Ok (Some c) -> py_compare w v = Ok (Some (CompOpp c)).
Proof.
  destruct v as [a|], w as [b|]; try discriminate.
  destruct (numeric a && numeric b) eqn:E.
  - apply andb_true_iff in E as [Na Nb].
    rewrite (py_compare_numeric a b Na Nb), (py_compare_numeric b a Nb Na).
    destruct (num_of a) as [x|], (num_of b) as [y|]; try discriminate.
    intros H. injection H as <-. now rewrite (num_compare_antisym x y).
  - destruct a as [| | | | s |], b as [| | | | t |];
      try discriminate E; try discriminate.
    cbn. intros H. injection H as <-. now rewrite (String.compare_antisym t s).
Qed.

(** [not (v > w)] and [not (v < w)] amount to [v <= w] and [w <= v], unless
    a NaN takes part. *)
Lemma py_gt_false_le (v w : value) :
  py_gt v w = Ok false -> py_le v w = Ok true \/ is_nan v || is_nan w = true.
Proof.
  unfold py_gt, py_le. destruct (py_compare v w) as [[[| |]|]|] eqn:E;
    cbn; try discriminate; auto.
  intros _. right. now apply py_compare_unordered.
Qed.

Lemma py_lt_false_ge (v w : value) :
  py_lt v w = Ok false -> py_le w v = Ok true \/ is_nan v || is_nan w = true.
Proof.
  unfold py_lt, py_le. destruct (py_compare v w) as [[c|]|] eqn:E;
    cbn; try discriminate.
  - rewrite (py_compare_swap v w c E). destruct c; cbn; try discriminate; auto.
  - intros _. right. now apply py_compare_unordered.
Qed.

(** C5 as stated fails: a NaN amount is neither above nor below any bound,
    so it passes [amount_max: 999] although [nan <= 999] is false, and
    [amount_min: 10000] although [nan >= 10000] ([10000 <= nan]) is false;
    the demo policy with the upper bound matches such a request. *)
Lemma nan_amount_passes_every_bound :
  _matches {[ "match" := VDict {[ "amount_max" := AInt 999 ]} ]}
           {[ "amount" := VAtom (AFloat (FNaN 1)) ]} = Ok true /\
  py_le (VAtom (AFloat (FNaN 1))) (VInt 999) = Ok false /\
  _matches {[ "match" := VDict {[ "amount_min" := AInt 10000 ]} ]}
           {[ "amount" := VAtom (AFloat (FNaN 1)) ]} = Ok true /\
  py_le (VInt 10000) (VAtom (AFloat (FNaN 1))) = Ok false /\
  _matches agent_allow_small
           (build_context (VStr "payment-agent-1") (VStr "payment.transfer")
              VNone {[ "amount" := VAtom (AFloat (FNaN 1)) ]}) = Ok true.
Proof. repeat split; reflexivity. Qed.

(** C5 (amount bounds), amended.  For every policy and context, a policy
    whose [match] is [{amount_max: B}] matches only when the amount, a
    missing one counting as infinite, is at most [B] or one of the two is a
    NaN, and a policy whose [match] is [{amount_min: B}] only when the
    amount, a missing one counting as 0, is at least [B] or one of the two
    is a NaN.  Among numbers other than NaN (booleans, integers, floats) a
    policy with the single bound matches exactly when its three patterns
    match and the bound holds, so a missing amount fails every finite
    amount_max.  With the patterns matched, a NaN amount passes every
    numeric bound and a NaN bound lets every numeric amount pass.  In
    particular 999 satisfies amount_max 999, 1000 and 999.5 do not, 10000
    satisfies amount_min 10000, 9999 and 9999.5 do not. *)
Theorem amount_bounds :
  (forall (p c : gmap string value) (b : atom),
     _matches p c = Ok true ->
     (dict_get p "match" empty_dict = VDict {[ "amount_max" := b ]} ->
      py_le (dict_get c "amount" (VAtom AInf)) (VAtom b) = Ok true \/
      is_nan (dict_get c "amount" (VAtom AInf)) || is_nan (VAtom b) = true) /\
     (dict_get p "match" empty_dict = VDict {[ "amount_min" := b ]} ->
      py_le (VAtom b) (dict_get c "amount" (VInt 0)) = Ok true \/
      is_nan (dict_get c "amount" (VInt 0)) || is_nan (VAtom b) = true)) /\
  (forall (p c : gmap string value) (b : atom) (B n : number),
     dict_get p "match" empty_dict = VDict {[ "amount_max" := b ]} ->
     num_of b = Some B ->
     amount_or PInf c = Some n ->
     (_matches p c = Ok true -> num_leb n B = true) /\
     (patterns_match p c -> _matches p c = Ok (num_leb n B))) /\
  (forall (p c : gmap string value) (b : atom) (B n : number),
     dict_get p "match" empty_dict = VDict {[ "amount_min" := b ]} ->
     num_of b = Some B ->
     amount_or (int 0) c = Some n ->
     (_matches p c = Ok true -> num_leb B n = true) /\
     (patterns_match p c -> _matches p c = Ok (num_leb B n))) /\
  (forall (p c : gmap string value) (z B : Z),
     c !! "amount" = Some (VInt z) -> patterns_match p c ->
     (dict_get p "match" empty_dict = VDict {[ "amount_max" := AInt B ]} ->
      _matches p c = Ok (Z.leb z B)) /\
     (dict_get p "match" empty_dict = VDict {[ "amount_min" := AInt B ]} ->
      _matches p c = Ok (Z.leb B z))) /\
  (forall (p c : gmap string value) (b : atom) (q : Q),
     dict_get p "match" empty_dict = VDict {[ "amount_max" := b ]} ->
     num_of b = Some (Fin q) ->
     c !! "amount" = None -> patterns_match p c -> _matches p c = Ok false) /\
  (forall (p c : gmap string value) (B : Z),
     dict_get p "match" empty_dict = VDict {[ "amount_min" := AInt B ]} ->
     c !! "amount" = None -> patterns_match p c ->
     _matches p c = Ok (Z.leb B 0)) /\
  (forall (p c : gmap string value) (k : string) (b : atom) (i : positive),
     k = "amount_max" \/ k = "amount_min" ->
     dict_get p "match" empty_dict = VDict {[ k := b ]} ->
     numeric b = true ->
     c !! "amount" = Some (VAtom (AFloat (FNaN i))) ->
     patterns_match p c -> _matches p c = Ok true) /\
  (forall (p c : gmap string value) (k : string) (i : positive),
     k = "amount_max" \/ k = "amount_min" ->
     dict_get p "match" empty_dict = VDict {[ k := AFloat (FNaN i) ]} ->
     is_number (dict_get c "amount" (VInt 0)) = true ->
     patterns_match p c -> _matches p c = Ok true) /\
  _matches {[ "match" := VDict {[ "amount_max" := AInt 999 ]} ]}
           {[ "amount" := VInt 999 ]} = Ok true /\
  _matches {[ "match" := VDict {[ "amount_max" := AInt 999 ]} ]}
           {[ "amount" := VInt 1000 ]} = Ok false /\
  _matches {[ "match" := VDict {[ "amount_max" := AInt 999 ]} ]}
           {[ "amount" := VAtom (AFloat (FFin (Qmake 1999 2))) ]} = Ok false /\
  _matches {[ "match" := VDict {[ "amount_min" := AInt 10000 ]} ]}
           {[ "amount" := VInt 10000 ]} = Ok true /\
  _matches {[ "match" := VDict {[ "amount_min" := AInt 10000 ]} ]}
           {[ "amount" := VInt 9999 ]} = Ok false /\
  _matches {[ "match" := VDict {[ "amount_min" := AInt 10000 ]} ]}
           {[ "amount" := VAtom (AFloat (FFin (Qmake 19999 2))) ]} = Ok false.
Proof.
  assert (Hmax : forall (p c : gmap string value) (b : atom) (B n : number),
     dict_get p "match" empty_dict = VDict {[ "amount_max" := b ]} ->
     num_of b = Some B ->
     amount_or PInf c = Some n ->
     patterns_match p c -> _matches p c = Ok (num_leb n B)).
  { intros p c b B n Hm Hb Hn Hp.
    destruct (amount_or_inv AInf PInf n c eq_refl Hn) as (a & Ea & Na).
    rewrite (matches_amount_max p c b a Hp Hm (num_of_numeric b B Hb) Ea
               (num_of_numeric a n Na)).
    unfold not_above. now rewrite Na, Hb. }
  assert (Hmin : forall (p c : gmap string value) (b : atom) (B n : number),
     dict_get p "match" empty_dict = VDict {[ "amount_min" := b ]} ->
     num_of b = Some B ->
     amount_or (int 0) c = Some n ->
     patterns_match p c -> _matches p c = Ok (num_leb B n)).
  { intros p c b B n Hm Hb Hn Hp.
    destruct (amount_or_inv (AInt 0) (int 0) n c eq_refl Hn) as (a & Ea & Na).
    rewrite (matches_amount_min p c b a Hp Hm (num_of_numeric b B Hb) Ea
               (num_of_numeric a n Na)).
    unfold not_below. now rewrite Na, Hb. }
  split; [|split; [|split; [|split; [|split; [|split; [|split; [|split]]]]]]].
  - intros p c b Ht. split; intros Hm.
    + apply py_gt_false_le.
      apply (proj1 (matches_true_bounds p c _ Ht Hm)), lookup_singleton_eq.
    + apply py_lt_false_ge.
      apply (proj2 (matches_true_bounds p c _ Ht Hm)), lookup_singleton_eq.
  - intros p c b B n Hm Hb Hn. split; [|now apply (Hmax p c b)].
    intros Ht. pose proof (matches_true_patterns p c Ht) as Hp.
    rewrite (Hmax p c b B n Hm Hb Hn Hp) in Ht. now injection Ht.
  - intros p c b B n Hm Hb Hn. split; [|now apply (Hmin p c b)].
    intros Ht. pose proof (matches_true_patterns p c Ht) as Hp.
    rewrite (Hmin p c b B n Hm Hb Hn Hp) in Ht. now injection Ht.
  - intros p c z B Hc Hp. split; intros Hm.
    + rewrite (Hmax p c (AInt B) (int B) (int z) Hm eq_refl); [|  |exact Hp].
      * now rewrite num_leb_int.
      * unfold amount_or. now rewrite Hc.
    + rewrite (Hmin p c (AInt B) (int B) (int z) Hm eq_refl); [|  |exact Hp].
      * now rewrite num_leb_int.
      * unfold amount_or. now rewrite Hc.
  - intros p c b q Hm Hb Hc Hp.
    rewrite (Hmax p c b (Fin q) PInf Hm Hb); [reflexivity| |exact Hp].
    unfold amount_or. now rewrite Hc.
  - intros p c B Hm Hc Hp.
    rewrite (Hmin p c (AInt B) (int B) (int 0) Hm eq_refl); [|  |exact Hp].
    + now rewrite num_leb_int.
    + unfold amount_or. now rewrite Hc.
  - intros p c k b i [-> | ->] Hm Hb Hc Hp.
    + now rewrite (matches_amount_max p c b _ Hp Hm Hb
                     (amount_present c _ _ Hc) eq_refl).
    + now rewrite (matches_amount_min p c b _ Hp Hm Hb
                     (amount_present c _ _ Hc) eq_refl).
  - intros p c k i [-> | ->] Hm Hc Hp;
      destruct (amount_numeric c Hc) as (ahi & alo & Eh & El & Nh & Nl).
    + rewrite (matches_amount_max p c _ ahi Hp Hm eq_refl Eh Nh).
      unfold not_above. now destruct (num_of ahi).
    + rewrite (matches_amount_min p c _ alo Hp Hm eq_refl El Nl).
      unfold not_below. now destruct (num_of alo).
  - repeat split; reflexivity.
Qed.

Lemma amount_bounds_witness :
  _matches agent_allow_small (payment_context "payment-agent-1" (Some 500)) =
    Ok true /\
  _matches agent_deny_large (payment_context "payment-agent-1" (Some 500)) =
    Ok false /\
  _matches agent_allow_small (payment_context "payment-agent-1" None) =
    Ok false /\
  _matches agent_deny_large (payment_context "payment-agent-1" None) =
    Ok false /\
  _matches agent_deny_large
    (build_context (VStr "payment-agent-1") (VStr "payment.transfer") VNone
       {[ "amount" := VAtom (AFloat (FNaN 1)) ]}) = Ok true.
Proof.
  destruct amount_bounds as (_ & Hmax & Hmin & _ & Hnomax & Hnomin & Hnan & _).
  split; [|split; [|split; [|split]]].
  - apply (proj2 (Hmax agent_allow_small
                    (payment_context "payment-agent-1" (Some 500))
                    (AInt 999) (int 999) (int 500) eq_refl eq_refl eq_refl)).
    repeat split; reflexivity.
  - apply (proj2 (Hmin agent_deny_large
                    (payment_context "payment-agent-1" (Some 500))
                    (AInt 1000) (int 1000) (int 500) eq_refl eq_refl eq_refl)).
    repeat split; reflexivity.
  - apply (Hnomax agent_allow_small (payment_context "payment-agent-1" None)
             (AInt 999) (inject_Z 999) eq_refl eq_refl eq_refl).
    repeat split; reflexivity.
  - apply (Hnomin agent_deny_large (payment_context "payment-agent-1" None) 1000
             eq_refl eq_refl).
    repeat split; reflexivity.
  - apply (Hnan agent_deny_large
             (build_context (VStr "payment-agent-1") (VStr "payment.transfer")
                VNone {[ "amount" := VAtom (AFloat (FNaN 1)) ]})
             "amount_min" (AInt 1000) 1%positive (or_intror eq_refl));
      [reflexivity | reflexivity | reflexivity | repeat split; reflexivity].
Defined.

(** ** The evaluation context *)

Lemma build_context_lookup (subject action resource : value)
    (attrs : gmap string value) (k : string) :
  build_context subject action resource attrs !! k =
  match attrs !! k with
  | Some v => Some v
  | None =>
      (<["resource" := py_or resource (VStr "*")]>
         (<["action" := action]> (<["subject" := subject]> ∅))
       : gmap string value) !! k
  end.
Proof.
  unfold build_context. rewrite lookup_union.
  destruct (attrs !! k);
    match goal with |- _ ∪ ?o = _ => destruct o end; reflexivity.
Qed.




(** C10 (empty resource): the empty string passed as [resource] is treated
    exactly as an omitted resource; unless [attrs] supplies a resource, the
    context's resource is "*", and it is against "*" that every policy's
    resource pattern is tested: the pattern "*" matches it, the empty
    pattern and the pattern "external" do not. *)
Theorem empty_resource_is_wildcard (repository : PolicyRepository.t)
    (subject action : value) (attrs : option (gmap string value)) :
  evaluate_all repository subject action (VStr "") attrs =
  evaluate_all repository subject action VNone attrs /\
  evaluate repository subject action (VStr "") attrs =
  evaluate repository subject action VNone attrs /\
  (default ∅ attrs !! "resource" = None ->
   build_context subject action (VStr "") (default ∅ attrs) !! "resource" =
   Some (VStr "*")) /\
  _matches {[ "resource" := VStr "*" ]}
           (build_context (VStr "payment-agent-1") (VStr "data.export")
              (VStr "") ∅) = Ok true /\
  _matches {[ "resource" := VStr "" ]}
           (build_context (VStr "payment-agent-1") (VStr "data.export")
              (VStr "") ∅) = Ok false /\
  _matches {[ "resource" := VStr "external" ]}
           (build_context (VStr "payment-agent-1") (VStr "data.export")
              (VStr "") ∅) = Ok false /\
  _matches_pattern (VStr "") (VStr "") = Ok true.
Proof.
  split; [reflexivity|]. split; [reflexivity|]. split.
  - intros Hr. rewrite build_context_lookup, Hr. now rewrite lookup_insert_eq.
  - repeat split; reflexivity.
Qed.

Lemma empty_resource_is_wildcard_witness :
  evaluate demo_repository (VStr "payment-agent-1") (VStr "payment.transfer")
    (VStr "") (Some {[ "amount" := VInt 500 ]}) =
  evaluate demo_repository (VStr "payment-agent-1") (VStr "payment.transfer")
    VNone (Some {[ "amount" := VInt 500 ]}) /\
  build_context (VStr "payment-agent-1") (VStr "payment.transfer") (VStr "")
    {[ "amount" := VInt 500 ]} !! "resource" = Some (VStr "*").
Proof.
  destruct (empty_resource_is_wildcard demo_repository (VStr "payment-agent-1")
              (VStr "payment.transfer") (Some {[ "amount" := VInt 500 ]}))
    as (_ & He & Hr & _).
  split; [exact He|]. apply Hr. reflexivity.
Defined.

(** ** The two entry points *)










Lemma matches_pattern_correct_witness :
  _matches_pattern (VStr "finance-*") (VStr "finance-agent-1") = Ok true.
Proof.
  destruct (proj1 matches_pattern_correct "finance-*" "finance-agent-1")
    as (b & Hb & Hspec).
  rewrite Hb. f_equal. apply Hspec.
  right; right. exists "finance-", "agent-1". split; reflexivity.
Defined.

(** * Further properties of the engine *)

(** ** Which effect wins *)

Lemma matched_in_sorted (rs srt : list match_result) (r : string) :
  sorted key_lt sort_key (List.filter mr_matches rs) = Ok srt ->
  (exists m, find (has_result r) srt = Some m) <-> has_matched r rs.
Proof.
  intros Hs. unfold has_matched. rewrite List.Exists_exists. split.
  - intros [m Hf]. apply find_some in Hf as [Hin Hr].
    apply has_result_true in Hr.
    apply (applicable_sorted_In rs srt m Hs) in Hin as [Hin Hm].
    exists m. now repeat split.
  - intros (m & Hin & Hm & Hr).
    destruct (find (has_result r) srt) as [m'|] eqn:Hf; [eauto|].
    exfalso. apply (find_absent r srt m Hf); [|exact Hr].
    apply (applicable_sorted_In rs srt m Hs). now split.
Qed.

(** The three-way outcome of the resolution in terms of what is matched. *)
Lemma effect_cases (rs : list match_result) (d : decision) :
  _compute_final_decision rs = Ok d ->
  (effect d = "deny" /\ allow d = false /\
   (has_matched "deny" rs \/
    (matched_policy d = VStr "default-deny" /\
     ~ has_matched "deny" rs /\ ~ has_matched "require_approval" rs /\
     ~ has_matched "allow" rs))) \/
  (effect d = "require_approval" /\ allow d = false /\
   ~ has_matched "deny" rs /\ has_matched "require_approval" rs) \/
  (effect d = "allow" /\ allow d = true /\
   ~ has_matched "deny" rs /\ ~ has_matched "require_approval" rs /\
   has_matched "allow" rs).
Proof.
  intros Hd.
  destruct (compute_final_decision_selects rs d Hd)
    as [(why & -> & Hno) | (srt & m & Hs & Hf & Hrec & Hp & Hal & Hnd & Hnr)].
  - left. cbn. repeat split; try (right; repeat split); try reflexivity;
      intros H; apply List.Exists_exists in H as (m & Hin & Hm & Hr);
      apply (Hno m Hin Hm); rewrite Hr; unfold recognized; auto.
  - assert (Hhere : has_matched (effect d) rs).
    { apply (matched_in_sorted rs srt _ Hs). eauto. }
    assert (Hnone : forall r, find (has_result r) srt = None -> ~ has_matched r rs).
    { intros r Hnf H. apply (matched_in_sorted rs srt r Hs) in H as [m' Hm'].
      congruence. }
    destruct Hrec as [He | [He | He]]; rewrite He in *.
    + left. repeat split; [exact Hal | now left].
    + right; left. repeat split; [exact Hal | | exact Hhere].
      apply Hnone, Hnd. discriminate.
    + right; right. repeat split; [exact Hal | | | exact Hhere].
      * apply Hnone, Hnd. discriminate.
      * apply Hnone, Hnr. reflexivity.
Qed.

(** X1: require_approval is the second tier of the precedence: a returned
    decision is require_approval (with allow false) exactly when no matched
    result is a deny and some matched result is a require_approval, whatever
    allows are matched and at whatever level or priority. *)
Theorem approval_precedence (rs : list match_result) (d : decision) :
  _compute_final_decision rs = Ok d ->
  (effect d = "require_approval" <->
   ~ has_matched "deny" rs /\ has_matched "require_approval" rs) /\
  (effect d = "require_approval" -> allow d = false).
Proof.
  intros Hd.
  destruct (effect_cases rs d Hd)
    as [(He & Ha & H) | [(He & Ha & Hnd & Hr) | (He & Ha & Hnd & Hnr & Hal)]];
    rewrite He; (split; [split|]); try discriminate; tauto.
Qed.

Lemma demo_approval_results_decision :
  _compute_final_decision
    [ mk_result "agent-allow-small" "enterprise" 1 "allow" true;
      mk_result "domain-finance-approval" "runtime" 90 "require_approval" true ] =
  Ok {| allow := false; effect := "require_approval";
        reason := [Lit "Approval required by policy ";
                   Fmt (VStr "domain-finance-approval")];
        matched_policy := VStr "domain-finance-approval" |}.
Proof. reflexivity. Qed.

Lemma approval_precedence_witness :
  ~ has_matched "deny"
      [ mk_result "agent-allow-small" "enterprise" 1 "allow" true;
        mk_result "domain-finance-approval" "runtime" 90 "require_approval" true ] /\
  has_matched "require_approval"
      [ mk_result "agent-allow-small" "enterprise" 1 "allow" true;
        mk_result "domain-finance-approval" "runtime" 90 "require_approval" true ].
Proof.
  exact (proj1 (proj1 (approval_precedence _ _ demo_approval_results_decision))
               eq_refl).
Defined.

(** X2: allow is granted exactly when some matched result is an allow and
    no matched result is a deny or a require_approval; in particular never
    by default. *)
Theorem allow_exactly_when (rs : list match_result) (d : decision) :
  _compute_final_decision rs = Ok d ->
  (allow d = true <->
   has_matched "allow" rs /\ ~ has_matched "deny" rs /\
   ~ has_matched "require_approval" rs) /\
  (allow d = true <-> effect d = "allow").
Proof.
  intros Hd.
  destruct (effect_cases rs d Hd)
    as [(He & Ha & H) | [(He & Ha & Hnd & Hr) | (He & Ha & Hnd & Hnr & Hal)]];
    rewrite He, Ha; (split; split); try discriminate; tauto.
Qed.

Lemma demo_allow_results_decision :
  _compute_final_decision
    [ mk_result "agent-allow-small" "agent" 10 "allow" true;
      mk_result "agent-deny-large" "agent" 10 "deny" false ] =
  Ok {| allow := true; effect := "allow";
        reason := [Lit "Allow by policy "; Fmt (VStr "agent-allow-small")];
        matched_policy := VStr "agent-allow-small" |}.
Proof. reflexivity. Qed.

Lemma allow_exactly_when_witness :
  has_matched "allow"
    [ mk_result "agent-allow-small" "agent" 10 "allow" true;
      mk_result "agent-deny-large" "agent" 10 "deny" false ] /\
  ~ has_matched "deny"
    [ mk_result "agent-allow-small" "agent" 10 "allow" true;
      mk_result "agent-deny-large" "agent" 10 "deny" false ] /\
  ~ has_matched "require_approval"
    [ mk_result "agent-allow-small" "agent" 10 "allow" true;
      mk_result "agent-deny-large" "agent" 10 "deny" false ].
Proof.
  exact (proj1 (proj1 (allow_exactly_when _ _ demo_allow_results_decision))
               eq_refl).
Defined.

(** ** The order of the listing *)





(** ** Stability of the sort *)

Section SortedStability.
Context {K A : Type}.
Variable lt : K -> K -> result bool.
Variable Q : K -> bool.

(** Two keys of the class [Q] are never strictly ordered. *)
Hypothesis class_not_ordered :
  forall a b, Q a = true -> Q b = true -> lt a b <> Ok true.

Let Q1 (kx : K * A) : bool := Q (fst kx).

Lemma insert_stable_filter (x : K * A) (l l' : list (K * A)) :
  insert_stable lt x l = Ok l' -> List.filter Q1 l' = List.filter Q1 (x :: l).
Proof.
  revert l'. induction l as [|y l IH]; intros l' H; cbn [insert_stable] in H.
  - injection H as <-. reflexivity.
  - inv_bind H. destruct a.
    + inv_bind H. injection H as <-.
      apply IH in Ha0. cbn [List.filter] in Ha0 |- *. rewrite Ha0.
      destruct (Q1 x) eqn:Qx, (Q1 y) eqn:Qy; try reflexivity.
      exfalso. now apply (class_not_ordered (fst y) (fst x) Qy Qx).
    + injection H as <-. reflexivity.
Qed.

Lemma sort_stable_filter (l l' : list (K * A)) :
  sort_stable lt l = Ok l' -> List.filter Q1 l' = List.filter Q1 l.
Proof.
  revert l'. induction l as [|x l IH]; intros l' H; cbn [sort_stable] in H.
  - injection H as <-. reflexivity.
  - inv_bind H. apply insert_stable_filter in H. rewrite H.
    cbn [List.filter]. now rewrite (IH _ Ha).
Qed.

Lemma filter_decorated (keyf : A -> K) (s : list (K * A)) :
  Forall (fun kx => fst kx = keyf (snd kx)) s ->
  List.filter (fun x => Q (keyf x)) (map snd s) = map snd (List.filter Q1 s).
Proof.
  induction 1 as [|kx s Hk _ IH]; [reflexivity|].
  cbn [map List.filter]. unfold Q1 at 1. rewrite <- Hk, IH.
  destruct (Q (fst kx)); reflexivity.
Qed.

(** The entries of one key class keep their relative order. *)
Lemma sorted_filter (key : A -> result K) (keyf : A -> K) (l l' : list A) :
  Forall (fun x => key x = Ok (keyf x)) l ->
  sorted lt key l = Ok l' ->
  List.filter (fun x => Q (keyf x)) l' = List.filter (fun x => Q (keyf x)) l.
Proof.
  intros Hk H. unfold sorted in H.
  rewrite (decorate_pure key keyf l Hk) in H. cbn in H.
  inv_bind H. injection H as <-. rename a into s.
  assert (Hs : Forall (fun kx => fst kx = keyf (snd kx)) s).
  { eapply Permutation_Forall; [apply (sort_stable_perm lt _ _ Ha)|].
    rewrite List.Forall_map. apply List.Forall_forall. reflexivity. }
  rewrite (filter_decorated keyf s Hs), (sort_stable_filter _ _ Ha).
  rewrite <- (filter_decorated keyf).
  - now rewrite List.map_map, List.map_id.
  - rewrite List.Forall_map. apply List.Forall_forall. reflexivity.
Qed.

End SortedStability.

Lemma find_conj {A : Type} (P Q : A -> bool) (l : list A) (w : A) :
  find P l = Some w -> Q w = true -> find (fun x => Q x && P x) l = Some w.
Proof.
  induction l as [|x l IH]; cbn [find]; [discriminate|].
  intros H Hq. destruct (P x) eqn:Px.
  - injection H as ->. now rewrite Hq.
  - rewrite andb_false_r. now apply IH.
Qed.

Lemma find_ext_in {A : Type} (f g : A -> bool) (l : list A) :
  (forall x, In x l -> f x = g x) -> find f l = find g l.
Proof.
  induction l as [|x l IH]; intros H; [reflexivity|].
  cbn [find]. rewrite (H x (or_introl eq_refl)).
  destruct (g x); [reflexivity|]. apply IH. intros y Hy. apply H. now right.
Qed.

Lemma find_filter {A : Type} (P Q : A -> bool) (l : list A) :
  find P (List.filter Q l) = find (fun x => Q x && P x) l.
Proof.
  induction l as [|x l IH]; [reflexivity|].
  cbn [List.filter find]. destruct (Q x); cbn [andb find]; [|exact IH].
  destruct (P x); [reflexivity | exact IH].
Qed.

(** The class of the sort keys that stand for the pair [k]. *)
Lemma key_class_not_ordered (k : Z * Z) (a b : Z * value) :
  key_eqb (fst a, int_of (snd a)) k && is_int (snd a) = true ->
  key_eqb (fst b, int_of (snd b)) k && is_int (snd b) = true ->
  key_lt a b <> Ok true.
Proof.
  destruct a as [r1 p1], b as [r2 p2], k as [r0 p0].
  unfold key_eqb. cbn [fst snd]. rewrite !andb_true_iff, !Z.eqb_eq.
  intros [[-> H1] I1] [[-> H2] I2].
  destruct p1 as [[| | n1 | | |]|]; try discriminate I1.
  destruct p2 as [[| | n2 | | |]|]; try discriminate I2.
  cbn [int_of] in H1, H2. subst n1 n2.
  unfold key_lt. cbn [fst snd]. rewrite Z.eqb_refl. cbn [negb].
  unfold py_same. cbn [atom_same atom_eq num_of num_compare].
  rewrite Qcompare_inject_Z, Z.compare_refl.
  cbn [negb]. discriminate.
Qed.

Lemma key_eqb_refl (k : Z * Z) : key_eqb k k = true.
Proof. unfold key_eqb. now rewrite !Z.eqb_refl. Qed.

(** X4: ties are resolved by the order of the listing.  When the decision
    stems from a matched result, the selected entry [w] is the first entry
    of the listing that is matched, has the winning outcome and carries
    [w]'s own [(level_rank, priority)] pair, and that pair is minimal in the
    class: among equally ranked candidates the one listed first wins. *)
Theorem ties_go_to_first_listed (rs : list match_result) (d : decision) :
  sortable_results rs ->
  _compute_final_decision rs = Ok d ->
  has_matched (effect d) rs ->
  exists w,
    find (in_class (effect d) (spec_key w)) rs = Some w /\
    matched_policy d = mr_policy w /\
    forall m', In m' rs -> mr_matches m' = true -> mr_result m' = effect d ->
               lex_le (spec_key w) (spec_key m').
Proof.
  intros Hs Hd Hhas.
  destruct (compute_final_decision_selects rs d Hd)
    as [(why & -> & Hno) | (srt & w & Hsrt & Hf & Hrec & Hp & _)].
  { exfalso. apply List.Exists_exists in Hhas as (m & Hin & Hm & Hr).
    apply (Hno m Hin Hm). rewrite Hr. now left. }
  exists w. split; [|split; [exact Hp|]].
  - pose proof (find_some _ _ Hf) as [Hw _].
    apply (applicable_sorted_In rs srt w Hsrt) in Hw as [Hw Hwm].
    pose proof (Hs w Hw Hwm) as Hws.
    set (Qk := fun k : Z * value =>
                 key_eqb (fst k, int_of (snd k)) (spec_key w) && is_int (snd k)).
    set (keyf := fun m : match_result =>
                   (spec_level_rank (mr_level m), mr_priority m)).
    assert (Hpure : Forall (fun m => sort_key m = Ok (keyf m))
                           (List.filter mr_matches rs)).
    { apply List.Forall_forall. intros m Hm. apply filter_In in Hm as [Hin Hm].
      apply sort_key_pure. now apply Hs. }
    pose proof (sorted_filter key_lt Qk (key_class_not_ordered (spec_key w))
                  sort_key keyf _ _ Hpure Hsrt) as Hfilt.
    assert (HQw : Qk (keyf w) = true).
    { unfold Qk, keyf. cbn [fst snd].
      change (key_eqb (spec_key w) (spec_key w) && is_int (mr_priority w) = true).
      rewrite key_eqb_refl. unfold sortable in Hws.
      now apply andb_true_iff in Hws as [_ ->]. }
    pose proof (find_conj _ (fun m => Qk (keyf m)) srt w Hf HQw) as H1.
    rewrite <- find_filter, Hfilt, !find_filter in H1.
    rewrite <- H1. apply find_ext_in. intros m Hin.
    unfold in_class. destruct (mr_matches m) eqn:Hm; [|reflexivity].
    cbn [andb]. unfold Qk, keyf. cbn [fst snd].
    change (key_eqb (fst (spec_key m), int_of (mr_priority m)) (spec_key w))
      with (key_eqb (spec_key m) (spec_key w)).
    pose proof (Hs m Hin Hm) as Hms. unfold sortable in Hms.
    apply andb_true_iff in Hms as [_ ->].
    rewrite andb_true_r. apply andb_comm.
  - intros m' Hin' Hm' Hr'.
    destruct (sorted_results (List.filter mr_matches rs)) as (srt' & Hs' & _ & Hord).
    { apply List.Forall_forall. intros m Hm. apply filter_In in Hm as [Hin Hm].
      now apply Hs. }
    rewrite Hsrt in Hs'. injection Hs' as <-.
    apply (find_strongly_sorted_min
             (fun x y => lex_le (spec_key x) (spec_key y))
             (has_result (effect d)) srt w).
    + intros x. apply lex_le_refl.
    + exact Hord.
    + exact Hf.
    + apply (applicable_sorted_In rs srt m' Hsrt). now split.
    + now apply has_result_true.
Qed.

Lemma tied_results_sortable : sortable_results tied_results.
Proof.
  intros m Hin _. cbn in Hin.
  destruct Hin as [<- | [<- | [<- | []]]]; reflexivity.
Qed.

Lemma tied_results_decision :
  _compute_final_decision tied_results =
  Ok {| allow := true; effect := "allow";
        reason := [Lit "Allow by policy "; Fmt (VStr "agent-allow-b")];
        matched_policy := VStr "agent-allow-b" |}.
Proof. reflexivity. Qed.

Lemma ties_go_to_first_listed_witness :
  exists w,
    find (in_class "allow" (spec_key w)) tied_results = Some w /\
    VStr "agent-allow-b" = mr_policy w /\
    forall m', In m' tied_results -> mr_matches m' = true ->
               mr_result m' = "allow" -> lex_le (spec_key w) (spec_key m').
Proof.
  apply (ties_go_to_first_listed tied_results _ tied_results_sortable
           tied_results_decision).
  apply Exists_cons_hd. split; reflexivity.
Defined.

(** ** What [_matches] reads *)

(** X5: [_matches] reads nothing but the policy's action, subject and
    resource patterns, the two amount bounds of its [match] dictionary and
    the context's action, subject, resource and amount.  Any other entry of
    [match] (such as data_classification) and any other attribute of the
    request has no influence on whether the policy matches. *)
Theorem matches_reads_only (p p' c c' : gmap string value)
    (d d' : gmap string atom) :
  p !! "action" = p' !! "action" ->
  p !! "subject" = p' !! "subject" ->
  p !! "resource" = p' !! "resource" ->
  dict_get p "match" empty_dict = VDict d ->
  dict_get p' "match" empty_dict = VDict d' ->
  d !! "amount_max" = d' !! "amount_max" ->
  d !! "amount_min" = d' !! "amount_min" ->
  c !! "action" = c' !! "action" ->
  c !! "subject" = c' !! "subject" ->
  c !! "resource" = c' !! "resource" ->
  c !! "amount" = c' !! "amount" ->
  _matches p c = _matches p' c'.
Proof.
  intros Hpa Hps Hpr Hd Hd' Hmax Hmin Hca Hcs Hcr Hcm.
  unfold _matches. rewrite Hd, Hd'. unfold dict_get.
  rewrite Hpa, Hps, Hpr, Hca, Hcs, Hcr, Hcm.
  cbn [py_in py_getitem]. rewrite Hmax, Hmin. reflexivity.
Qed.

Lemma matches_reads_only_witness :
  _matches enterprise_pii_protection (export_context "pii") =
  _matches (<["match" := VDict ∅]> enterprise_pii_protection)
           (export_context "public") /\
  _matches enterprise_pii_protection (export_context "public") = Ok true.
Proof.
  split; [|reflexivity].
  apply (matches_reads_only enterprise_pii_protection
           (<["match" := VDict ∅]> enterprise_pii_protection)
           (export_context "pii") (export_context "public")
           {[ "data_classification" := AStr "pii" ]} ∅);
    reflexivity.
Defined.

(** ** Patterns and values that are not strings *)

Lemma py_eq_not_str (v : value) (s : string) :
  is_str v = false -> py_eq v (VStr s) = false /\ py_eq (VStr s) v = false.
Proof.
  destruct v as [[| b | z | | t | [q | | i]] | d]; cbn; try discriminate; auto.
Qed.

(** X6: outside strings [_matches_pattern] is exact about when it raises.
    A string pattern tested against a value that is no string matches when
    it is the wildcard, raises [AttributeError] when it ends with a star,
    and fails otherwise; a pattern that is no string matches a value equal
    to it and raises [AttributeError] on every other value. *)
Theorem matches_pattern_on_other_values :
  (forall (p : string) (v : value),
     is_str v = false ->
     _matches_pattern (VStr p) v =
     if String.eqb p "*" then Ok true
     else if endswith p "*" then Raise AttributeError
     else Ok false) /\
  (forall pat v : value,
     is_str pat = false ->
     _matches_pattern pat v =
     if py_eq pat v then Ok true else Raise AttributeError).
Proof.
  split.
  - intros p v Hv. unfold _matches_pattern.
    change (py_eq (VStr p) (VStr "*")) with (String.eqb p "*").
    destruct (String.eqb p "*"); [reflexivity|].
    rewrite (proj2 (py_eq_not_str v p Hv)).
    cbn [py_endswith VStr mbind result_bind].
    destruct (endswith p "*"); [|reflexivity].
    cbn [py_drop_last mbind result_bind].
    destruct v as [[| b | z | | t | ft] | d]; try reflexivity. discriminate Hv.
  - intros pat v Hp. unfold _matches_pattern.
    rewrite (proj1 (py_eq_not_str pat "*" Hp)).
    destruct (py_eq pat v); [reflexivity|].
    destruct pat as [[| b | z | | t | ft] | d]; try reflexivity. discriminate Hp.
Qed.

Lemma matches_pattern_on_other_values_witness :
  _matches_pattern (VStr "finance-*") VNone = Raise AttributeError /\
  _matches_pattern (VStr "finance-agent-1") VNone = Ok false /\
  _matches_pattern VNone (VStr "finance-agent-1") = Raise AttributeError.
Proof.
  destruct matches_pattern_on_other_values as [Hs Hn].
  split; [|split].
  - exact (Hs "finance-*" VNone eq_refl).
  - exact (Hs "finance-agent-1" VNone eq_refl).
  - exact (Hn VNone (VStr "finance-agent-1") eq_refl).
Defined.

(** ** Policies with both amount bounds *)

(** X7: a policy whose [match] carries both [amount_min: lo] and
    [amount_max: hi] (and whatever else) matches, once its patterns match,
    exactly the amounts between the two bounds, both included, among the
    numbers other than NaN; a request without an amount never matches it,
    and neither does any request with such a number when the range is
    empty.  A NaN amount matches it whatever the bounds, an empty range
    included. *)
Theorem amount_range (p c : gmap string value) (d : gmap string atom)
    (lo hi : Z) :
  patterns_match p c ->
  dict_get p "match" empty_dict = VDict d ->
  d !! "amount_min" = Some (AInt lo) ->
  d !! "amount_max" = Some (AInt hi) ->
  (forall a n, c !! "amount" = Some (VAtom a) -> num_of a = Some n ->
     _matches p c = Ok (num_leb (int lo) n && num_leb n (int hi))) /\
  (forall z, c !! "amount" = Some (VInt z) ->
     _matches p c = Ok (Z.leb lo z && Z.leb z hi)) /\
  (c !! "amount" = None -> _matches p c = Ok false) /\
  (hi < lo -> forall n, amount_or PInf c = Some n -> _matches p c = Ok false) /\
  (forall i, c !! "amount" = Some (VAtom (AFloat (FNaN i))) ->
     _matches p c = Ok true).
Proof.
  intros Hp Hd Hmin Hmax.
  assert (Hgen : forall ahi alo,
             dict_get c "amount" (VAtom AInf) = VAtom ahi ->
             dict_get c "amount" (VInt 0) = VAtom alo ->
             numeric ahi = true -> numeric alo = true ->
             _matches p c = Ok (not_above ahi (AInt hi) && not_below alo (AInt lo))).
  { intros ahi alo Eh El Nh Nl.
    rewrite (matches_amounts p c d ahi alo Hp Hd Eh El Nh Nl).
    - now rewrite Hmax, Hmin.
    - unfold bound_ok. now rewrite Hmax.
    - unfold bound_ok. now rewrite Hmin. }
  assert (Hnum : forall a n, c !! "amount" = Some (VAtom a) -> num_of a = Some n ->
                   _matches p c = Ok (num_leb (int lo) n && num_leb n (int hi))).
  { intros a n Ha Hn.
    rewrite (Hgen a a (amount_present c _ _ Ha) (amount_present c _ _ Ha)
               (num_of_numeric a n Hn) (num_of_numeric a n Hn)).
    unfold not_above, not_below. rewrite Hn. cbn [num_of].
    now rewrite andb_comm. }
  split; [exact Hnum|]. split; [|split; [|split]].
  - intros z Hz. rewrite (Hnum (AInt z) (int z) Hz eq_refl).
    now rewrite !num_leb_int.
  - intros Hc.
    now rewrite (Hgen AInf (AInt 0) (amount_absent c _ Hc) (amount_absent c _ Hc)
                   eq_refl eq_refl).
  - intros Hlt n Hn.
    destruct (amount_or_both c PInf (int 0) n Hn) as [(Hc & _ & _) | (Hc & _)].
    + now rewrite (Hgen AInf (AInt 0) (amount_absent c _ Hc) (amount_absent c _ Hc)
                     eq_refl eq_refl).
    + unfold amount_or in Hn.
      destruct (c !! "amount") as [[a|d']|] eqn:Ec; [|discriminate Hn|now destruct Hc].
      rewrite (Hnum a n eq_refl Hn). f_equal.
      destruct (num_leb (int lo) n) eqn:E1; [|reflexivity].
      destruct (num_leb n (int hi)) eqn:E2; [|reflexivity].
      pose proof (num_leb_trans _ _ _ E1 E2) as E.
      rewrite num_leb_int in E. apply Z.leb_le in E. lia.
  - intros i Hc.
    now rewrite (Hgen _ _ (amount_present c _ _ Hc) (amount_present c _ _ Hc)
                   eq_refl eq_refl).
Qed.

Lemma amount_range_witness :
  _matches (range_policy 1000 9999) (payment_context "payment-agent-1" (Some 5000)) =
    Ok true /\
  _matches (range_policy 1000 9999) (payment_context "payment-agent-1" (Some 10000)) =
    Ok false /\
  _matches (range_policy 1000 9999) (payment_context "payment-agent-1" None) =
    Ok false /\
  _matches (range_policy 9999 1000) (payment_context "payment-agent-1" (Some 5000)) =
    Ok false /\
  _matches (range_policy 9999 1000)
    (build_context (VStr "payment-agent-1") (VStr "payment.transfer") VNone
       {[ "amount" := VAtom (AFloat (FNaN 1)) ]}) = Ok true.
Proof.
  assert (Hp : forall lo hi amount,
            patterns_match (range_policy lo hi)
                           (payment_context "payment-agent-1" amount)).
  { intros lo hi [z|]; repeat split; reflexivity. }
  split; [|split; [|split; [|split]]].
  - exact (proj1 (proj2 (amount_range _ _ _ 1000 9999 (Hp _ _ (Some 5000))
                           eq_refl eq_refl eq_refl)) 5000 eq_refl).
  - exact (proj1 (proj2 (amount_range _ _ _ 1000 9999 (Hp _ _ (Some 10000))
                           eq_refl eq_refl eq_refl)) 10000 eq_refl).
  - exact (proj1 (proj2 (proj2 (amount_range _ _ _ 1000 9999 (Hp _ _ None)
                                  eq_refl eq_refl eq_refl))) eq_refl).
  - apply (proj1 (proj2 (proj2 (proj2 (amount_range _ _ _ 9999 1000
                                         (Hp _ _ (Some 5000))
                                         eq_refl eq_refl eq_refl))))
             ltac:(lia) (int 5000)).
    reflexivity.
  - apply (proj2 (proj2 (proj2 (proj2
             (amount_range (range_policy 9999 1000)
                (build_context (VStr "payment-agent-1") (VStr "payment.transfer")
                   VNone {[ "amount" := VAtom (AFloat (FNaN 1)) ]})
                (<["amount_min" := AInt 9999]> {[ "amount_max" := AInt 1000 ]})
                9999 1000 ltac:(repeat split; reflexivity)
                eq_refl eq_refl eq_refl)))) 1%positive).
    reflexivity.
Defined.

(** ** A decision is backed by a stored policy *)

Lemma result_recognized_effect (p : gmap string value) (b : bool) (r : string) :
  _result_for_single_policy p b = r -> recognized r ->
  b = true /\ dict_get p "effect" VNone = VStr r.
Proof.
  unfold _result_for_single_policy. intros H Hrec.
  destruct b; cbn [negb] in H.
  2:{ subst r. destruct Hrec as [H | [H | H]]; discriminate H. }
  split; [reflexivity|].
  destruct (py_eq _ (VStr "deny")) eqn:E1.
  { apply py_eq_str_r in E1. congruence. }
  destruct (py_eq _ (VStr "allow")) eqn:E2.
  { apply py_eq_str_r in E2. congruence. }
  destruct (py_eq _ (VStr "require_approval")) eqn:E3.
  { apply py_eq_str_r in E3. congruence. }
  subst r. destruct Hrec as [H | [H | H]]; discriminate H.
Qed.

Lemma Forall2_In_r {A B : Type} (R : A -> B -> Prop) (l : list A) (l' : list B)
    (y : B) :
  Forall2 R l l' -> In y l' -> exists x, In x l /\ R x y.
Proof.
  induction 1 as [|x y' l l' Hxy _ IH]; intros Hin; [destruct Hin|].
  destruct Hin as [<- | Hin].
  - exists x. split; [now left | exact Hxy].
  - destruct (IH Hin) as (x' & Hx' & Hr). exists x'. split; [now right | exact Hr].
Qed.

(** X8: every decision [evaluate] returns is backed by the store: either it
    is a default deny (allow false, effect deny, matched_policy
    "default-deny"), or some stored policy matches the request, declares
    exactly the decision's effect, and its id is the decision's
    matched_policy. *)
Theorem decision_backed_by_policy (repository : PolicyRepository.t)
    (subject action resource : value) (attrs : option (gmap string value))
    (d : decision) :
  evaluate repository subject action resource attrs = Ok d ->
  (allow d = false /\ effect d = "deny" /\
   matched_policy d = VStr "default-deny") \/
  (exists p,
     In p (PolicyRepository.list repository) /\
     _matches p (build_context subject action resource (default ∅ attrs)) =
       Ok true /\
     dict_get p "effect" VNone = VStr (effect d) /\
     matched_policy d = dict_get p "id" VNone).
Proof.
  unfold evaluate. intros H. inv_bind H. injection H as <-. rename a into ev.
  apply evaluate_all_inv in Ha as [Hm Hd].
  apply match_all_inv in Hm.
  destruct (compute_final_decision_selects _ _ Hd)
    as [(why & -> & _) | (srt & m & Hs & Hf & Hrec & Hp & _)].
  - left. repeat split.
  - right. pose proof (find_some _ _ Hf) as [Hin Hr].
    apply has_result_true in Hr.
    apply (applicable_sorted_In _ srt m Hs) in Hin as [Hin Hmm].
    destruct (Forall2_In_r _ _ _ m Hm Hin) as (p & Hpin & Hres).
    destruct Hres as (Hmatch & Hid & _ & _ & _ & Hres).
    exists p. split; [exact Hpin|].
    rewrite Hmm in Hmatch. split; [exact Hmatch|].
    rewrite Hr in Hres. symmetry in Hres.
    apply result_recognized_effect in Hres as [_ He]; [|exact Hrec].
    split; [exact He | congruence].
Qed.

Lemma demo_evaluate_large_transfer :
  evaluate demo_repository (VStr "finance-agent-1") (VStr "payment.transfer")
    VNone (Some {[ "amount" := VInt 15000 ]}) =
  Ok {| allow := false; effect := "deny";
        reason := [Lit "Deny by policy "; Fmt (VStr "agent-deny-large")];
        matched_policy := VStr "agent-deny-large" |}.
Proof. reflexivity. Qed.

Lemma decision_backed_by_policy_witness :
  (false = false /\ "deny" = "deny" /\
   VStr "agent-deny-large" = VStr "default-deny") \/
  (exists p,
     In p (PolicyRepository.list demo_repository) /\
     _matches p (build_context (VStr "finance-agent-1") (VStr "payment.transfer")
                   VNone {[ "amount" := VInt 15000 ]}) = Ok true /\
     dict_get p "effect" VNone = VStr "deny" /\
     VStr "agent-deny-large" = dict_get p "id" VNone).
Proof.
  exact (decision_backed_by_policy _ _ _ _ _ _ demo_evaluate_large_transfer).
Defined.

(** ** When an amount that is no number raises *)






(** * The policy store *)

(** ** Dictionaries keyed by scalars *)

Lemma num_canon (x y : number) :
  num_compare x y = Eq <->
  match x with Fin q => Fin (Qred q) | _ => x end =
  match y with Fin q => Fin (Qred q) | _ => y end.
Proof.
  destruct x as [p| |], y as [q| |]; cbn [num_compare];
    split; intros H; try reflexivity; try discriminate H.
  - f_equal. apply Qred_complete. now apply Qeq_alt.
  - injection H as H. apply Qeq_alt. now apply Qred_eq_iff.
Qed.

Lemma atom_same_canon (a b : atom) : atom_same a b = true <-> canon a = canon b.
Proof.
  assert (Hnum : forall x y : number,
            match num_compare x y with Eq => true | _ => false end = true <->
            (inl match x with Fin q => Fin (Qred q) | _ => x end : number + atom) =
            inl match y with Fin q => Fin (Qred q) | _ => y end).
  { intros x y. split.
    - intros H. f_equal. apply num_canon.
      destruct (num_compare x y); [reflexivity | discriminate H | discriminate H].
    - intros H. injection H as H. apply num_canon in H. now rewrite H. }
  assert (Hcanon : forall (c : atom) (x : number), num_of c = Some x ->
            canon c = inl match x with Fin q => Fin (Qred q) | _ => x end).
  { intros c x Hx. unfold canon. rewrite Hx. now destruct x. }
  destruct (num_of a) as [x|] eqn:Ea, (num_of b) as [y|] eqn:Eb.
  - rewrite (Hcanon a x Ea), (Hcanon b y Eb), <- Hnum.
    destruct a as [| | | | | [| |]], b as [| | | | | [| |]];
      try discriminate Ea; try discriminate Eb;
      cbn [atom_same atom_eq num_of] in *;
      injection Ea as <-; injection Eb as <-; reflexivity.
  - rewrite (Hcanon a x Ea). unfold canon. rewrite Eb.
    destruct a as [| | | | | [| |]], b as [| | | | | [| |]];
      try discriminate Ea; try discriminate Eb;
      cbn [atom_same atom_eq num_of]; split; discriminate.
  - rewrite (Hcanon b y Eb). unfold canon. rewrite Ea.
    destruct a as [| | | | | [| |]], b as [| | | | | [| |]];
      try discriminate Ea; try discriminate Eb;
      cbn [atom_same atom_eq num_of]; split; discriminate.
  - unfold canon. rewrite Ea, Eb.
    destruct a as [| | | | s | [| | i]], b as [| | | | t | [| | j]];
      try discriminate Ea; try discriminate Eb;
      cbn [atom_same atom_eq num_of]; split; intros H;
      try reflexivity; try discriminate H.
    + apply String.eqb_eq in H. now subst.
    + injection H as ->. apply String.eqb_refl.
    + apply Pos.eqb_eq in H. now subst.
    + injection H as ->. apply Pos.eqb_refl.
Qed.

(** Equal scalars are identified by dictionaries and sets. *)
Lemma atom_eq_same (a b : atom) : atom_eq a b = true -> atom_same a b = true.
Proof.
  destruct a as [| | | | | [| |]], b as [| | | | | [| |]];
    cbn [atom_same]; try exact (fun H => H); discriminate.
Qed.

Lemma atom_same_refl (a : atom) : atom_same a a = true.
Proof. now apply atom_same_canon. Qed.

Lemma atom_same_false_canon (a b : atom) :
  atom_same a b = false <-> canon a <> canon b.
Proof.
  rewrite <- atom_same_canon. destruct (atom_same a b); split; congruence.
Qed.

Lemma entries_get_set_same {V : Type} (d : list (atom * V)) (k k' : atom) (v : V) :
  atom_same k k' = true -> entries_get (entries_set d k v) k' = Some v.
Proof.
  intros Hk. induction d as [|[k0 v0] d IH]; cbn [entries_set entries_get].
  - now rewrite Hk.
  - destruct (atom_same k0 k) eqn:E; cbn [entries_get].
    + assert (H : atom_same k0 k' = true).
      { apply atom_same_canon. apply atom_same_canon in E, Hk. congruence. }
      now rewrite H.
    + assert (H : atom_same k0 k' = false).
      { apply atom_same_false_canon. apply atom_same_false_canon in E.
        apply atom_same_canon in Hk. congruence. }
      now rewrite H.
Qed.

Lemma entries_get_set_other {V : Type} (d : list (atom * V)) (k k' : atom) (v : V) :
  atom_same k k' = false -> entries_get (entries_set d k v) k' = entries_get d k'.
Proof.
  intros Hk. induction d as [|[k0 v0] d IH]; cbn [entries_set entries_get].
  - now rewrite Hk.
  - destruct (atom_same k0 k) eqn:E; cbn [entries_get].
    + assert (H : atom_same k0 k' = false).
      { apply atom_same_false_canon. apply atom_same_false_canon in Hk.
        apply atom_same_canon in E. congruence. }
      now rewrite H.
    + destruct (atom_same k0 k'); [reflexivity | exact IH].
Qed.

Lemma entries_get_set {V : Type} (d : list (atom * V)) (k k' : atom) (v : V) :
  entries_get (entries_set d k v) k' =
  if atom_same k k' then Some v else entries_get d k'.
Proof.
  destruct (atom_same k k') eqn:E.
  - now apply entries_get_set_same.
  - now apply entries_get_set_other.
Qed.

Lemma entries_set_fresh {V : Type} (d : list (atom * V)) (k : atom) (v : V) :
  entries_get d k = None -> entries_set d k v = (d ++ [(k, v)])%list.
Proof.
  induction d as [|[k0 v0] d IH]; cbn [entries_set entries_get]; [reflexivity|].
  destruct (atom_same k0 k); [discriminate|]. intros H. cbn. now rewrite IH.
Qed.

Lemma entries_set_present {V : Type} (d : list (atom * V)) (k : atom) (v old : V) :
  entries_get d k = Some old ->
  exists d1 k0 d2,
    d = (d1 ++ (k0, old) :: d2)%list /\
    entries_set d k v = (d1 ++ (k0, v) :: d2)%list /\
    atom_same k0 k = true.
Proof.
  induction d as [|[k0 v0] d IH]; cbn [entries_set entries_get]; [discriminate|].
  destruct (atom_same k0 k) eqn:E.
  - intros H. injection H as ->. exists [], k0, d. now repeat split.
  - intros H. destruct (IH H) as (d1 & k1 & d2 & -> & -> & Hk).
    exists ((k0, v0) :: d1), k1, d2. now repeat split.
Qed.

Lemma entries_get_None_canon {V : Type} (d : list (atom * V)) (k : atom) :
  entries_get d k = None -> ~ In (canon k) (map (fun kv => canon (fst kv)) d).
Proof.
  induction d as [|[k0 v0] d IH]; cbn [entries_get map In fst]; [tauto|].
  destruct (atom_same k0 k) eqn:E; [discriminate|].
  intros H [Heq | Hin]; [|now apply IH].
  apply atom_same_false_canon in E. congruence.
Qed.

Lemma distinct_keys_set {V : Type} (d : list (atom * V)) (k : atom) (v : V) :
  distinct_keys d -> distinct_keys (entries_set d k v).
Proof.
  unfold distinct_keys. intros Hd.
  destruct (entries_get d k) as [old|] eqn:E.
  - destruct (entries_set_present d k v old E) as (d1 & k0 & d2 & -> & -> & _).
    rewrite !List.map_app in *. exact Hd.
  - rewrite (entries_set_fresh d k v E), List.map_app. cbn [map fst].
    apply NoDup_app. split; [exact Hd|]. split; [|apply NoDup_singleton].
    intros x Hx Hk. apply list_elem_of_singleton in Hk. subst x.
    apply list_elem_of_In in Hx. exact (entries_get_None_canon d k E Hx).
Qed.

(** ** [add_policy] and [get] *)

Lemma add_policy_store (self : Repository.state) (policy : gmap string value)
    (id : atom) :
  dict_get policy "id" VNone = VAtom id -> py_truthy (VAtom id) = true ->
  PolicyRepository.policies (Repository.repo (fst (Repository.add_policy self policy))) =
  entries_set (PolicyRepository.policies (Repository.repo self)) id policy.
Proof.
  intros Hid Ht. unfold Repository.add_policy. rewrite Hid, Ht. cbn [negb].
  destruct (index_add (Repository.action_index self) _ id); [|reflexivity].
  destruct (index_add (Repository.subject_index self) _ id); [|reflexivity].
  destruct (index_add (Repository.resource_index self) _ id); reflexivity.
Qed.

Lemma add_policy_unusable (self : Repository.state) (policy : gmap string value) :
  py_truthy (dict_get policy "id" VNone) = false \/
  (exists d, dict_get policy "id" VNone = VDict d) ->
  fst (Repository.add_policy self policy) = self.
Proof.
  unfold Repository.add_policy. intros [H | [d H]]; rewrite H.
  - reflexivity.
  - destruct (negb _); reflexivity.
Qed.

(** X10: what [add_policy] stores, [get] returns: after adding a policy
    whose id is a true-valued scalar, [get] with that id (or with any value
    equal to it under [==]) returns the policy, also when the update of an
    index raised.  The id itself is found by identity even when it is a
    NaN, which equals nothing. *)
Theorem add_then_get (self : Repository.state) (policy : gmap string value)
    (id id' : atom) :
  dict_get policy "id" VNone = VAtom id -> py_truthy (VAtom id) = true ->
  atom_same id id' = true ->
  Repository.get (fst (Repository.add_policy self policy)) (VAtom id') =
  Ok (Some policy).
Proof.
  intros Hid Ht He. unfold Repository.get.
  rewrite (add_policy_store self policy id Hid Ht).
  now rewrite (entries_get_set_same _ id id' policy He).
Qed.

Lemma add_then_get_witness :
  Repository.get (fst (Repository.add_policy Repository.empty agent_allow_small))
    (VStr "agent-allow-small") = Ok (Some agent_allow_small) /\
  Repository.get
    (fst (Repository.add_policy Repository.empty (<["id" := VInt 1]> agent_allow_small)))
    (VAtom (ABool true)) = Ok (Some (<["id" := VInt 1]> agent_allow_small)).
Proof.
  split.
  - apply (add_then_get Repository.empty agent_allow_small
             (AStr "agent-allow-small") (AStr "agent-allow-small"));
      reflexivity.
  - apply (add_then_get Repository.empty (<["id" := VInt 1]> agent_allow_small)
             (AInt 1) (ABool true)); reflexivity.
Defined.

(** X11: [add_policy] touches no other id: [get] with an id that is
    neither the policy's id object nor equal to it under [==] returns what
    it returned before; and a
    policy whose id is missing, false-valued or a mapping leaves the whole
    state as it was, silently in the first two cases. *)
Theorem add_policy_leaves_other_ids (self : Repository.state)
    (policy : gmap string value) :
  (forall id', (forall id, dict_get policy "id" VNone = VAtom id ->
                           atom_same id id' = false) ->
     Repository.get (fst (Repository.add_policy self policy)) (VAtom id') =
     Repository.get self (VAtom id')) /\
  (py_truthy (dict_get policy "id" VNone) = false ->
   Repository.add_policy self policy = (self, Ok tt)) /\
  (forall d, dict_get policy "id" VNone = VDict d -> d <> ∅ ->
   Repository.add_policy self policy = (self, Raise TypeError)).
Proof.
  split; [|split].
  - intros id' Hne. unfold Repository.get. f_equal.
    destruct (py_truthy (dict_get policy "id" VNone)) eqn:Ht.
    2:{ now rewrite add_policy_unusable by now left. }
    destruct (dict_get policy "id" VNone) as [id|d] eqn:Hid.
    2:{ rewrite add_policy_unusable; [reflexivity|]. right. eauto. }
    rewrite (add_policy_store self policy id Hid Ht).
    apply entries_get_set_other. now apply Hne.
  - intros Ht. unfold Repository.add_policy. now rewrite Ht.
  - intros d Hd Hne. unfold Repository.add_policy. rewrite Hd.
    cbn [py_truthy]. rewrite bool_decide_eq_false_2 by exact Hne. reflexivity.
Qed.

Lemma add_policy_leaves_other_ids_witness :
  Repository.get
    (fst (Repository.add_policy
            (fst (Repository.add_policy Repository.empty agent_allow_small))
            agent_deny_large))
    (VStr "agent-allow-small") =
  Repository.get (fst (Repository.add_policy Repository.empty agent_allow_small))
    (VStr "agent-allow-small") /\
  Repository.add_policy Repository.empty (delete "id" agent_allow_small) =
  (Repository.empty, Ok tt).
Proof.
  destruct (add_policy_leaves_other_ids
              (fst (Repository.add_policy Repository.empty agent_allow_small))
              agent_deny_large) as (H1 & _).
  destruct (add_policy_leaves_other_ids Repository.empty
              (delete "id" agent_allow_small)) as (_ & H2 & _).
  split.
  - apply H1. intros id Hid. injection Hid as <-. reflexivity.
  - apply H2. reflexivity.
Defined.

(** X12: adding under a new id appends the policy to the listing and grows
    [size()] by one; adding under an id already present keeps [size()] and
    replaces the old policy at its place in the listing (last write
    wins). *)
Theorem add_policy_size (self : Repository.state) (policy : gmap string value)
    (id : atom) :
  dict_get policy "id" VNone = VAtom id -> py_truthy (VAtom id) = true ->
  (Repository.get self (VAtom id) = Ok None ->
   PolicyRepository.list (Repository.repo (fst (Repository.add_policy self policy))) =
   (PolicyRepository.list (Repository.repo self) ++ [policy])%list /\
   PolicyRepository.size (Repository.repo (fst (Repository.add_policy self policy))) =
   S (PolicyRepository.size (Repository.repo self))) /\
  (forall old, Repository.get self (VAtom id) = Ok (Some old) ->
   PolicyRepository.size (Repository.repo (fst (Repository.add_policy self policy))) =
   PolicyRepository.size (Repository.repo self) /\
   exists l1 l2,
     PolicyRepository.list (Repository.repo self) = (l1 ++ old :: l2)%list /\
     PolicyRepository.list (Repository.repo (fst (Repository.add_policy self policy))) =
     (l1 ++ policy :: l2)%list).
Proof.
  intros Hid Ht.
  unfold PolicyRepository.list, PolicyRepository.size, Repository.get.
  rewrite (add_policy_store self policy id Hid Ht). split.
  - intros H. injection H as H. rewrite (entries_set_fresh _ id policy H).
    rewrite List.map_app, List.length_app. cbn. split; [reflexivity | lia].
  - intros old H. injection H as H.
    destruct (entries_set_present _ id policy old H) as (d1 & k0 & d2 & -> & -> & _).
    rewrite !List.map_app, !List.length_app. cbn. split; [reflexivity|].
    exists (map snd d1), (map snd d2). split; reflexivity.
Qed.

Lemma add_policy_size_witness :
  PolicyRepository.size
    (Repository.repo (fst (Repository.add_policy Repository.empty agent_allow_small))) =
  1%nat /\
  PolicyRepository.size
    (Repository.repo
       (fst (Repository.add_policy
               (fst (Repository.add_policy Repository.empty agent_allow_small))
               (<["effect" := VStr "deny"]> agent_allow_small)))) = 1%nat.
Proof.
  split.
  - exact (proj2 (proj1 (add_policy_size Repository.empty agent_allow_small
                           (AStr "agent-allow-small") eq_refl eq_refl) eq_refl)).
  - exact (proj1 (proj2 (add_policy_size
                           (fst (Repository.add_policy Repository.empty
                                   agent_allow_small))
                           (<["effect" := VStr "deny"]> agent_allow_small)
                           (AStr "agent-allow-small") eq_refl eq_refl)
                        agent_allow_small eq_refl)).
Defined.

(** ** Index updates *)

Lemma set_add_member (s : list atom) (x : atom) :
  existsb (fun y => atom_same y x) (set_add s x) = true.
Proof.
  unfold set_add. destruct (existsb _ s) eqn:E; [exact E|].
  rewrite List.existsb_app. cbn. now rewrite atom_same_refl, orb_true_r.
Qed.

Lemma index_add_indexed (index index' : list (atom * list atom)) (k id : atom) :
  index_add index (VAtom k) id = Ok index' -> indexed index' k id.
Proof.
  cbn [index_add]. intros H. injection H as <-. unfold indexed.
  eexists. split; [apply entries_get_set_same, atom_same_refl|].
  apply set_add_member.
Qed.

(** X13: when the id is a true-valued scalar and the policy's action,
    subject and resource (or their default "*") can be hashed, [add_policy]
    succeeds and each of the three indexes then holds the id under the
    policy's key. *)
Theorem add_policy_indexes (self : Repository.state)
    (policy : gmap string value) (id ka ks kr : atom) :
  dict_get policy "id" VNone = VAtom id -> py_truthy (VAtom id) = true ->
  dict_get policy "action" (VStr "*") = VAtom ka ->
  dict_get policy "subject" (VStr "*") = VAtom ks ->
  dict_get policy "resource" (VStr "*") = VAtom kr ->
  snd (Repository.add_policy self policy) = Ok tt /\
  indexed (Repository.action_index (fst (Repository.add_policy self policy))) ka id /\
  indexed (Repository.subject_index (fst (Repository.add_policy self policy))) ks id /\
  indexed (Repository.resource_index (fst (Repository.add_policy self policy))) kr id.
Proof.
  intros Hid Ht Ha Hs Hr. unfold Repository.add_policy.
  rewrite Hid, Ht, Ha, Hs, Hr. cbn [negb].
  destruct (index_add (Repository.action_index self) (VAtom ka) id) as [ai|e] eqn:Ea;
    [|discriminate Ea].
  destruct (index_add (Repository.subject_index self) (VAtom ks) id) as [si|e] eqn:Es;
    [|discriminate Es].
  destruct (index_add (Repository.resource_index self) (VAtom kr) id) as [ri|e] eqn:Er;
    [|discriminate Er].
  cbn. repeat split; eapply index_add_indexed; eassumption.
Qed.

Lemma add_policy_indexes_witness :
  snd (Repository.add_policy Repository.empty domain_finance_approval) = Ok tt /\
  indexed (Repository.action_index
             (fst (Repository.add_policy Repository.empty domain_finance_approval)))
          (AStr "payment.transfer") (AStr "domain-finance-approval") /\
  indexed (Repository.subject_index
             (fst (Repository.add_policy Repository.empty domain_finance_approval)))
          (AStr "finance-*") (AStr "domain-finance-approval") /\
  indexed (Repository.resource_index
             (fst (Repository.add_policy Repository.empty domain_finance_approval)))
          (AStr "*") (AStr "domain-finance-approval").
Proof.
  apply (add_policy_indexes Repository.empty domain_finance_approval);
    reflexivity.
Defined.

(** X14: an index update that raises leaves the policy in the store.  When
    the id is usable but the action is a mapping, [add_policy] raises
    [TypeError] after the policy has been stored: [get] returns it, the
    listing that the engine evaluates contains it, and no index was
    updated. *)
Theorem add_policy_interrupted (self : Repository.state)
    (policy : gmap string value) (id : atom) (d : gmap string atom) :
  dict_get policy "id" VNone = VAtom id -> py_truthy (VAtom id) = true ->
  dict_get policy "action" (VStr "*") = VDict d ->
  snd (Repository.add_policy self policy) = Raise TypeError /\
  Repository.get (fst (Repository.add_policy self policy)) (VAtom id) =
    Ok (Some policy) /\
  In policy (PolicyRepository.list
               (Repository.repo (fst (Repository.add_policy self policy)))) /\
  Repository.action_index (fst (Repository.add_policy self policy)) =
    Repository.action_index self /\
  Repository.subject_index (fst (Repository.add_policy self policy)) =
    Repository.subject_index self /\
  Repository.resource_index (fst (Repository.add_policy self policy)) =
    Repository.resource_index self.
Proof.
  intros Hid Ht Ha.
  pose proof (add_policy_store self policy id Hid Ht) as Hstore.
  split; [|split; [|split]].
  - unfold Repository.add_policy. rewrite Hid, Ht, Ha. reflexivity.
  - unfold Repository.get. rewrite Hstore. f_equal.
    apply entries_get_set_same, atom_same_refl.
  - unfold PolicyRepository.list. rewrite Hstore.
    destruct (entries_get (PolicyRepository.policies (Repository.repo self)) id)
      as [old|] eqn:E.
    + destruct (entries_set_present _ id policy old E) as (d1 & k0 & d2 & _ & -> & _).
      rewrite List.map_app. apply List.in_or_app. right. now left.
    + rewrite (entries_set_fresh _ id policy E), List.map_app.
      apply List.in_or_app. right. now left.
  - unfold Repository.add_policy. rewrite Hid, Ht, Ha. repeat split.
Qed.

Lemma add_policy_interrupted_witness :
  snd (Repository.add_policy Repository.empty (Repository.normalize broken_entry)) =
    Raise TypeError /\
  Repository.get
    (fst (Repository.add_policy Repository.empty (Repository.normalize broken_entry)))
    (VStr "broken") = Ok (Some (Repository.normalize broken_entry)).
Proof.
  destruct (add_policy_interrupted Repository.empty
              (Repository.normalize broken_entry) (AStr "broken")
              {[ "name" := AStr "payment.transfer" ]} eq_refl eq_refl eq_refl)
    as (H1 & H2 & _).
  split; [exact H1 | exact H2].
Defined.

(** ** The loader *)

Lemma normalize_id (p : gmap string value) :
  dict_get (Repository.normalize p) "id" VNone = dict_get p "id" VNone.
Proof. reflexivity. Qed.

Lemma normalize_action (p : gmap string value) :
  dict_get (Repository.normalize p) "action" VNone = dict_get p "action" VNone.
Proof. reflexivity. Qed.

Lemma load_policies_cons (self : Repository.state) (p : gmap string value)
    (rest : list (gmap string value)) :
  Repository.load_policies self (p :: rest) =
  if loadable p then
    match Repository.add_policy self (Repository.normalize p) with
    | (self', Raise e) => (self', Raise e)
    | (self', Ok _) =>
        match Repository.load_policies self' rest with
        | (self'', Ok policies) => (self'', Ok (Repository.normalize p :: policies))
        | (self'', Raise e) => (self'', Raise e)
        end
    end
  else Repository.load_policies self rest.
Proof. reflexivity. Qed.

Lemma find_app_or {A : Type} (f : A -> bool) (l1 l2 : list A) :
  find f (l1 ++ l2) =
  match find f l1 with
  | Some x => Some x
  | None => find f l2
  end.
Proof.
  induction l1 as [|x l1 IH]; [reflexivity|].
  cbn [app find]. destruct (f x); [reflexivity | exact IH].
Qed.

(** X15: what a completed load leaves behind.  The returned policies are
    the normalized loadable entries, in order (an entry whose id or action
    is missing or false-valued is skipped), and afterwards [get] returns,
    for every id, the last loaded policy with that id, or else what the store
    held before the load. *)
Theorem load_policies_last_write_wins (entries : list (gmap string value)) :
  forall (self s' : Repository.state) (policies : list (gmap string value)),
  Repository.load_policies self entries = (s', Ok policies) ->
  policies = map Repository.normalize (List.filter loadable entries) /\
  forall k,
    Repository.get s' (VAtom k) =
    Ok (match find (has_id k) (rev policies) with
        | Some policy => Some policy
        | None => entries_get (PolicyRepository.policies (Repository.repo self)) k
        end).
Proof.
  induction entries as [|p rest IH]; intros self s' policies H.
  - cbn in H. injection H as <- <-. split; reflexivity.
  - rewrite load_policies_cons in H. cbn [List.filter].
    destruct (loadable p) eqn:Hl; [|now apply IH].
    destruct (Repository.add_policy self (Repository.normalize p)) as [s1 r1] eqn:Hadd.
    destruct r1 as [[]|e]; [|discriminate H].
    destruct (Repository.load_policies s1 rest) as [s2 r2] eqn:Hrest.
    destruct r2 as [pols|e]; [|discriminate H].
    injection H as <- <-.
    destruct (IH s1 s2 pols Hrest) as [Hpols Hget].
    split; [cbn [map]; now rewrite Hpols|].
    intros k. rewrite Hget. f_equal. cbn [rev]. rewrite find_app_or.
    destruct (find (has_id k) (rev pols)); [reflexivity|].
    unfold loadable in Hl. apply andb_true_iff in Hl as [Hid _].
    rewrite <- normalize_id in Hid.
    destruct (dict_get (Repository.normalize p) "id" VNone) as [id|d] eqn:Eid.
    + pose proof (add_policy_store self (Repository.normalize p) id Eid Hid) as Hs.
      rewrite Hadd in Hs. cbn [fst] in Hs. rewrite Hs, entries_get_set.
      cbn [find]. unfold has_id. rewrite Eid. cbn [py_same].
      destruct (atom_same id k); reflexivity.
    + exfalso. unfold Repository.add_policy in Hadd. rewrite Eid, Hid in Hadd.
      cbn in Hadd. discriminate Hadd.
Qed.

Lemma load_demo_entries :
  Repository.load_policies Repository.empty
    [ agent_allow_small; delete "id" agent_deny_large;
      <["effect" := VStr "deny"]> agent_allow_small ] =
  (fst (Repository.load_policies Repository.empty
          [ agent_allow_small; delete "id" agent_deny_large;
            <["effect" := VStr "deny"]> agent_allow_small ]),
   Ok [ Repository.normalize agent_allow_small;
        Repository.normalize (<["effect" := VStr "deny"]> agent_allow_small) ]).
Proof. reflexivity. Qed.

Lemma load_policies_last_write_wins_witness :
  Repository.get
    (fst (Repository.load_policies Repository.empty
            [ agent_allow_small; delete "id" agent_deny_large;
              <["effect" := VStr "deny"]> agent_allow_small ]))
    (VStr "agent-allow-small") =
  Ok (Some (Repository.normalize (<["effect" := VStr "deny"]> agent_allow_small))).
Proof.
  exact (proj2 (load_policies_last_write_wins _ _ _ _ load_demo_entries)
               (AStr "agent-allow-small")).
Defined.

(** ** The keys of the store *)

Lemma distinct_keys_get {V : Type} (d : list (atom * V)) (k0 k : atom) (v : V) :
  distinct_keys d -> In (k0, v) d -> atom_same k0 k = true ->
  entries_get d k = Some v.
Proof.
  unfold distinct_keys. induction d as [|[k1 v1] d IH]; intros Hd Hin Hk;
    [destruct Hin|].
  cbn [map fst] in Hd. apply NoDup_cons in Hd as [Hnin Hd].
  cbn [entries_get]. destruct Hin as [Heq | Hin].
  - injection Heq as -> ->. now rewrite Hk.
  - destruct (atom_same k1 k) eqn:E; [|now apply IH].
    exfalso. apply Hnin. apply list_elem_of_In.
    apply atom_same_canon in E, Hk. rewrite E, <- Hk.
    apply (List.in_map (fun kv => canon (fst kv)) d (k0, v) Hin).
Qed.

Lemma well_keyed_set (d : list (atom * gmap string value)) (id : atom)
    (policy : gmap string value) :
  well_keyed d -> dict_get policy "id" VNone = VAtom id ->
  py_truthy (VAtom id) = true ->
  well_keyed (entries_set d id policy).
Proof.
  intros [Hd Hf] Hid Ht. split; [now apply distinct_keys_set|].
  destruct (entries_get d id) as [old|] eqn:E.
  - destruct (entries_set_present d id policy old E) as (d1 & k0 & d2 & -> & -> & Hk).
    apply List.Forall_app in Hf as [H1 H2].
    apply List.Forall_cons_iff in H2 as [_ H2].
    apply List.Forall_app. split; [exact H1|]. constructor; [|exact H2].
    exists id. now repeat split.
  - rewrite (entries_set_fresh d id policy E).
    apply List.Forall_app. split; [exact Hf|]. constructor; [|constructor].
    exists id. repeat split; [exact Hid | apply atom_same_refl | exact Ht].
Qed.

Lemma well_keyed_add_policy (self : Repository.state) (policy : gmap string value) :
  well_keyed (PolicyRepository.policies (Repository.repo self)) ->
  well_keyed (PolicyRepository.policies
                (Repository.repo (fst (Repository.add_policy self policy)))).
Proof.
  intros Hw.
  destruct (py_truthy (dict_get policy "id" VNone)) eqn:Ht.
  2:{ now rewrite add_policy_unusable by now left. }
  destruct (dict_get policy "id" VNone) as [id|d] eqn:Hid.
  2:{ rewrite add_policy_unusable; [exact Hw|]. right. eauto. }
  rewrite (add_policy_store self policy id Hid Ht).
  now apply well_keyed_set.
Qed.

(** X16: the store keeps its keys in step with its policies.  Starting from
    the empty store, [add_policy] and the loader (also when they raise)
    preserve that every entry sits under a key equal to its policy's
    true-valued id and that no two keys are equal; hence every policy of the
    listing is returned by [get] on its own id. *)
Theorem store_stays_well_keyed :
  well_keyed (PolicyRepository.policies (Repository.repo Repository.empty)) /\
  (forall self policy,
     well_keyed (PolicyRepository.policies (Repository.repo self)) ->
     well_keyed (PolicyRepository.policies
                   (Repository.repo (fst (Repository.add_policy self policy))))) /\
  (forall entries self,
     well_keyed (PolicyRepository.policies (Repository.repo self)) ->
     well_keyed (PolicyRepository.policies
                   (Repository.repo (fst (Repository.load_policies self entries))))) /\
  (forall self policy,
     well_keyed (PolicyRepository.policies (Repository.repo self)) ->
     In policy (PolicyRepository.list (Repository.repo self)) ->
     Repository.get self (dict_get policy "id" VNone) = Ok (Some policy)).
Proof.
  split; [|split; [|split]].
  - split; [constructor | constructor].
  - exact well_keyed_add_policy.
  - induction entries as [|p rest IH]; intros self Hw; [exact Hw|].
    rewrite load_policies_cons. destruct (loadable p); [|now apply IH].
    pose proof (well_keyed_add_policy self (Repository.normalize p) Hw) as H1.
    destruct (Repository.add_policy self (Repository.normalize p)) as [s1 [[]|e]];
      cbn [fst] in H1; [|exact H1].
    pose proof (IH s1 H1) as H2.
    destruct (Repository.load_policies s1 rest) as [s2 [pols|e]]; exact H2.
  - intros self policy [Hd Hf] Hin. unfold PolicyRepository.list in Hin.
    apply List.in_map_iff in Hin as ([k0 pol] & Heq & Hin). cbn in Heq. subst pol.
    rewrite List.Forall_forall in Hf.
    destruct (Hf _ Hin) as (id & Hid & Hk & _). cbn [fst snd] in Hid, Hk.
    rewrite Hid. unfold Repository.get. f_equal.
    exact (distinct_keys_get _ k0 id policy Hd Hin Hk).
Qed.

Lemma store_stays_well_keyed_witness :
  Repository.get
    (fst (Repository.load_policies Repository.empty
            [ agent_allow_small; agent_deny_large; domain_finance_approval ]))
    (dict_get (Repository.normalize agent_deny_large) "id" VNone) =
  Ok (Some (Repository.normalize agent_deny_large)).
Proof.
  destruct store_stays_well_keyed as (H0 & _ & Hload & Hget).
  apply Hget.
  - exact (Hload [ agent_allow_small; agent_deny_large; domain_finance_approval ]
                 Repository.empty H0).
  - right; left. reflexivity.
Defined.

(** ** From the loader to the engine *)




Lemma match_all_returns_inv (ps : list (gmap string value))
    (c : gmap string value) (p : gmap string value) :
  returns (match_all ps c) -> In p ps -> returns (_matches p c).
Proof.
  intros [rs H] Hin. apply match_all_inv in H.
  revert Hin. induction H as [|q m ps rs Hqm _ IH]; intros Hin; [destruct Hin|].
  destruct Hin as [<- | Hin]; [|now apply IH].
  destruct Hqm as [Hm _]. eexists. exact Hm.
Qed.

(** X18: a load that fails on an action given as a mapping still poisons
    the store.  The loader raises [TypeError] at that entry, yet the policy
    stays in the listing, and from then on neither [evaluate_all] nor
    [evaluate] returns for any request whose action is a string. *)
Theorem interrupted_load_blocks_evaluation (self : Repository.state)
    (p : gmap string value) (rest : list (gmap string value))
    (id : atom) (d : gmap string atom)
    (subject action resource : value) (attrs : option (gmap string value)) :
  dict_get p "id" VNone = VAtom id -> py_truthy (VAtom id) = true ->
  dict_get p "action" VNone = VDict d -> d <> ∅ ->
  is_str (dict_get (build_context subject action resource (default ∅ attrs))
            "action" (VStr "")) = true ->
  snd (Repository.load_policies self (p :: rest)) = Raise TypeError /\
  In (Repository.normalize p)
     (PolicyRepository.list
        (Repository.repo (fst (Repository.load_policies self (p :: rest))))) /\
  ~ returns (evaluate_all
               (Repository.repo (fst (Repository.load_policies self (p :: rest))))
               subject action resource attrs) /\
  ~ returns (evaluate
               (Repository.repo (fst (Repository.load_policies self (p :: rest))))
               subject action resource attrs).
Proof.
  intros Hid Ht Ha Hne Hc.
  assert (Hl : loadable p = true).
  { unfold loadable. rewrite Hid, Ht, Ha. cbn [py_truthy andb].
    now rewrite bool_decide_eq_false_2 by exact Hne. }
  assert (Hna : dict_get (Repository.normalize p) "action" (VStr "*") = VDict d).
  { change (dict_get (Repository.normalize p) "action" (VStr "*"))
      with (dict_get p "action" VNone). exact Ha. }
  assert (Hadd : Repository.add_policy self (Repository.normalize p) =
                 (fst (Repository.add_policy self (Repository.normalize p)),
                  Raise TypeError)).
  { unfold Repository.add_policy. rewrite normalize_id, Hid, Ht, Hna. reflexivity. }
  rewrite load_policies_cons, Hl, Hadd. cbn [fst snd].
  assert (Hin : In (Repository.normalize p)
                   (PolicyRepository.list
                      (Repository.repo
                         (fst (Repository.add_policy self (Repository.normalize p)))))).
  { unfold PolicyRepository.list.
    rewrite (add_policy_store self (Repository.normalize p) id
               (eq_trans (normalize_id p) Hid) Ht).
    destruct (entries_get (PolicyRepository.policies (Repository.repo self)) id)
      as [old|] eqn:E.
    - destruct (entries_set_present _ id (Repository.normalize p) old E)
        as (d1 & k0 & d2 & _ & -> & _).
      rewrite List.map_app. apply List.in_or_app. right. now left.
    - rewrite (entries_set_fresh _ id (Repository.normalize p) E), List.map_app.
      apply List.in_or_app. right. now left. }
  assert (Hraise : ~ returns
            (evaluate_all
               (Repository.repo
                  (fst (Repository.add_policy self (Repository.normalize p))))
               subject action resource attrs)).
  { intros [ev Hev]. apply evaluate_all_inv in Hev as [Hm _].
    destruct (match_all_returns_inv _ _ (Repository.normalize p)
                (ex_intro _ _ Hm) Hin) as [b Hb].
    unfold _matches in Hb. rewrite Hna in Hb.
    apply is_str_inv in Hc as [s Hs]. rewrite Hs in Hb. discriminate Hb. }
  split; [reflexivity|]. split; [exact Hin|]. split; [exact Hraise|].
  intros [dd Hd]. unfold evaluate in Hd. inv_bind Hd.
  apply Hraise. eexists. exact Ha0.
Qed.

Lemma interrupted_load_blocks_evaluation_witness :
  snd (Repository.load_policies Repository.empty [broken_entry; agent_allow_small]) =
    Raise TypeError /\
  ~ returns (evaluate
               (Repository.repo
                  (fst (Repository.load_policies Repository.empty
                          [broken_entry; agent_allow_small])))
               (VStr "payment-agent-1") (VStr "data.export") VNone None).
Proof.
  destruct (interrupted_load_blocks_evaluation Repository.empty broken_entry
              [agent_allow_small] (AStr "broken")
              {[ "name" := AStr "payment.transfer" ]}
              (VStr "payment-agent-1") (VStr "data.export") VNone None)
    as (H1 & _ & _ & H2); try reflexivity.
  - apply map_non_empty_singleton.
  - split; [exact H1 | exact H2].
Defined.

(** * The payment tool *)

Lemma approval_not_allowed (rs : list match_result) (d : decision) :
  _compute_final_decision rs = Ok d -> effect d = "require_approval" ->
  allow d = false.
Proof.
  intros Hd He.
  destruct (effect_cases rs d Hd)
    as [(He' & Ha & _) | [(He' & Ha & _) | (He' & Ha & _)]];
    [exact Ha | exact Ha | congruence].
Qed.

(** X19: [_process_payment] reports what the engine decided, with one loss:
    the status is "approved" exactly when the final decision allows, and
    "denied" otherwise, so a payment that requires approval is reported as
    denied.  Policy, reason and trace are those of [evaluate_all], and a
    transaction id (a number below one million) is issued exactly for
    approved payments. *)
Theorem payment_reports_decision (py_hash : atom -> atom -> atom -> Z)
    (repository : PolicyRepository.t) (agent_id : string)
    (amount recipient type : value) (r : payment) :
  _process_payment py_hash repository agent_id amount recipient type = Ok r ->
  exists action ev,
    action_map_get type "payment.transfer" = Ok action /\
    evaluate_all repository (VStr agent_id) (VStr action) (VStr "payment_system")
      (Some (<["amount" := amount]> {[ "recipient" := recipient ]})) = Ok ev /\
    pay_policy r = matched_policy (final ev) /\
    pay_reason r = reason (final ev) /\
    pay_trace r = matches ev /\
    (pay_status r = "approved" <-> allow (final ev) = true) /\
    (pay_status r = "denied" <-> allow (final ev) = false) /\
    (effect (final ev) = "require_approval" -> pay_status r = "denied") /\
    (pay_status r = "approved" <->
     exists n, pay_transaction_id r = Some (TXN n) /\ 0 <= n < 1000000).
Proof.
  unfold _process_payment. intros H.
  apply bind_Ok in H as (action & Hact & H).
  apply bind_Ok in H as (ev & Hev & H).
  exists action, ev. split; [exact Hact|]. split; [exact Hev|].
  pose proof (proj2 (evaluate_all_inv _ _ _ _ _ _ Hev)) as Hd.
  destruct (allow (final ev)) eqn:Hal.
  - apply bind_Ok in H as (h & Hh & H). injection H as <-. cbn.
    repeat split; try reflexivity; try discriminate.
    + intros He. pose proof (approval_not_allowed _ _ Hd He). congruence.
    + intros _. exists (Z.abs h mod 1000000). split; [reflexivity|].
      apply Z.mod_pos_bound. lia.
  - injection H as <-. cbn.
    repeat split; try reflexivity; try discriminate.
    intros (n & Hn & _). discriminate Hn.
Qed.

Lemma demo_payment_run :
  _process_payment (fun _ _ _ => 42) demo_repository "finance-agent-1"
    (VInt 500) (VStr "vendor") (VStr "transfer") = Ok demo_payment.
Proof. reflexivity. Qed.

Lemma payment_reports_decision_witness :
  exists action ev,
    action_map_get (VStr "transfer") "payment.transfer" = Ok action /\
    evaluate_all demo_repository (VStr "finance-agent-1") (VStr action)
      (VStr "payment_system")
      (Some (<["amount" := VInt 500]> {[ "recipient" := VStr "vendor" ]})) = Ok ev /\
    pay_policy demo_payment = matched_policy (final ev) /\
    pay_reason demo_payment = reason (final ev) /\
    pay_trace demo_payment = matches ev /\
    (pay_status demo_payment = "approved" <-> allow (final ev) = true) /\
    (pay_status demo_payment = "denied" <-> allow (final ev) = false) /\
    (effect (final ev) = "require_approval" -> pay_status demo_payment = "denied") /\
    (pay_status demo_payment = "approved" <->
     exists n, pay_transaction_id demo_payment = Some (TXN n) /\ 0 <= n < 1000000).
Proof.
  exact (payment_reports_decision _ _ _ _ _ _ _ demo_payment_run).
Defined.

Lemma action_map_lookup (s : string) :
  default "payment.transfer" (action_map !! s) =
  if String.eqb s "wire" then "payment.wire" else "payment.transfer".
Proof.
  unfold action_map.
  destruct (String.eqb_spec s "transfer") as [->|H1]; [reflexivity|].
  rewrite lookup_insert_ne by congruence.
  destruct (String.eqb_spec s "wire") as [->|H2]; [reflexivity|].
  rewrite lookup_insert_ne by congruence.
  destruct (String.eqb_spec s "payment") as [->|H3]; [reflexivity|].
  rewrite lookup_insert_ne by congruence.
  now rewrite lookup_empty.
Qed.

(** X20: the payment type only tells wires from transfers.  Every type that
    can be hashed and is not the string "wire" (an unknown string, [None], a
    number) gives the very result of a "transfer"; and whatever the amount
    and the recipient, the policies are matched against the agent's own id
    as subject and against the resource "payment_system". *)
Theorem payment_type_fallback (py_hash : atom -> atom -> atom -> Z)
    (repository : PolicyRepository.t) (agent_id : string)
    (amount recipient : value) :
  (forall t : atom, t <> AStr "wire" ->
     _process_payment py_hash repository agent_id amount recipient (VAtom t) =
     _process_payment py_hash repository agent_id amount recipient (VStr "transfer")) /\
  action_map_get (VStr "wire") "payment.transfer" = Ok "payment.wire" /\
  (forall action : string,
     build_context (VStr agent_id) (VStr action) (VStr "payment_system")
       (<["amount" := amount]> {[ "recipient" := recipient ]}) !! "subject" =
     Some (VStr agent_id) /\
     build_context (VStr agent_id) (VStr action) (VStr "payment_system")
       (<["amount" := amount]> {[ "recipient" := recipient ]}) !! "resource" =
     Some (VStr "payment_system") /\
     build_context (VStr agent_id) (VStr action) (VStr "payment_system")
       (<["amount" := amount]> {[ "recipient" := recipient ]}) !! "action" =
     Some (VStr action)).
Proof.
  split; [|split; [reflexivity|]].
  - intros t Ht. unfold _process_payment.
    assert (H : action_map_get (VAtom t) "payment.transfer" = Ok "payment.transfer").
    { destruct t as [| b | z | | s | fs]; try reflexivity.
      cbn [action_map_get]. rewrite action_map_lookup.
      destruct (String.eqb_spec s "wire") as [->|Hs]; [congruence | reflexivity]. }
    rewrite H. reflexivity.
  - intros action. rewrite !build_context_lookup.
    repeat split; reflexivity.
Qed.

Lemma payment_type_fallback_witness :
  _process_payment (fun _ _ _ => 42) demo_repository "finance-agent-1"
    (VInt 500) (VStr "vendor") (VStr "cheque") =
  _process_payment (fun _ _ _ => 42) demo_repository "finance-agent-1"
    (VInt 500) (VStr "vendor") (VStr "transfer").
Proof.
  apply (proj1 (payment_type_fallback (fun _ _ _ => 42) demo_repository
                  "finance-agent-1" (VInt 500) (VStr "vendor")) (AStr "cheque")).
  discriminate.
Defined.
